(** * Watch Collection API: the extraction routine, the slug and file-name
      formatters and the request handlers of [main.py].

    Python's [str] is a sequence of code points.  This development carries
    the code points below 256 (Latin-1) in Rocq's [ascii], and a [str] is
    a list of them; the character classes of [re] and of the [str] methods
    are the ones CPython has on that range. *)

From Stdlib Require Import List Ascii String Bool Arith Lia DecimalString.
Import ListNotations.
Local Open Scope string_scope.
Local Open Scope list_scope.
Local Open Scope bool_scope.

(** ** Strings *)

Definition str := list ascii.

Definition lit (s : string) : str := list_ascii_of_string s.
Coercion lit : string >-> str.

Definition str_eq_dec : forall a b : str, {a = b} + {a <> b} :=
  list_eq_dec ascii_dec.

Definition str_eqb (a b : str) : bool :=
  if str_eq_dec a b then true else false.

Definition code (c : ascii) : nat := nat_of_ascii c.

Definition in_range (lo hi : nat) (c : ascii) : bool :=
  ((lo <=? code c) && (code c <=? hi))%nat.

(** [str.isspace] on one code point, also the class [\s] of [re] on [str]
    patterns: TAB..CR, FS..US, SPACE, NEL and NBSP. *)
Definition isspace (c : ascii) : bool :=
  in_range 9 13 c || in_range 28 32 c
  || (code c =? 133)%nat || (code c =? 160)%nat.

(** [str.isalnum] on one code point: the letters and the decimal, digit
    and numeric characters of Latin-1. *)
Definition isalnum (c : ascii) : bool :=
  in_range 48 57 c || in_range 65 90 c || in_range 97 122 c
  || (code c =? 170)%nat || in_range 178 179 c || (code c =? 181)%nat
  || in_range 185 186 c || in_range 188 190 c
  || in_range 192 214 c || in_range 216 246 c || in_range 248 255 c.

(** The class [\w] of [re]: alphanumeric or underscore. *)
Definition isword (c : ascii) : bool := isalnum c || Ascii.eqb c "_".

Definition ishyphen (c : ascii) : bool := Ascii.eqb c "-".

(** [str.lower] on one code point: A-Z and the capitals U+00C0..U+00DE
    other than the multiplication sign move up by 32. *)
Definition lower_char (c : ascii) : ascii :=
  if in_range 65 90 c || (in_range 192 222 c && negb (code c =? 215)%nat)
  then ascii_of_nat (code c + 32)
  else c.

Definition lower (s : str) : str := map lower_char s.

(** [s.lstrip(chars)] and [s.rstrip(chars)], the set given as a predicate;
    with no argument the set is [isspace]. *)
Fixpoint lstrip (p : ascii -> bool) (s : str) : str :=
  match s with
  | [] => []
  | c :: r => if p c then lstrip p r else s
  end.

Fixpoint rstrip (p : ascii -> bool) (s : str) : str :=
  match s with
  | [] => []
  | c :: r =>
      match rstrip p r with
      | [] => if p c then [] else [c]
      | r' => c :: r'
      end
  end.

Definition strip (p : ascii -> bool) (s : str) : str := rstrip p (lstrip p s).

Fixpoint startswith (pre s : str) : bool :=
  match pre, s with
  | [], _ => true
  | _ :: _, [] => false
  | a :: pre', b :: s' => Ascii.eqb a b && startswith pre' s'
  end.

(** [s.replace(old, new)] for a one-character [old]. *)
Definition replace_char (old : ascii) (new : str) (s : str) : str :=
  flat_map (fun c => if Ascii.eqb c old then new else [c]) s.

(** ** Regular-expression substitution

    [re.sub] is used with two shapes of pattern only: one character of a
    class, and a non-empty run of characters of a class. *)

(** [re.sub('[cls]', repl, s)]: every character of the class is replaced. *)
Definition re_sub_class (cls : ascii -> bool) (repl : str) (s : str) : str :=
  flat_map (fun c => if cls c then repl else [c]) s.

(** [re.sub('[cls]+', repl, s)]: matches are leftmost and greedy, so every
    maximal run of the class is replaced once.  [inrun] tells that the
    previous character belonged to a run already replaced. *)
Fixpoint re_sub_run (cls : ascii -> bool) (repl : str) (inrun : bool) (s : str)
  : str :=
  match s with
  | [] => []
  | c :: r =>
      if cls c
      then (if inrun then [] else repl) ++ re_sub_run cls repl true r
      else c :: re_sub_run cls repl false r
  end.

Definition re_sub_plus (cls : ascii -> bool) (repl : str) (s : str) : str :=
  re_sub_run cls repl false s.

(** ** Storage utility functions *)

(** The class [[^\w\s-]]. *)
Definition not_word_space_hyphen (c : ascii) : bool :=
  negb (isword c || isspace c || ishyphen c).

(** The class [[\s-]]. *)
Definition space_or_hyphen (c : ascii) : bool := isspace c || ishyphen c.

Definition generate_slug (name : str) : str :=
  match name with
  | [] => []
  | _ =>
      let slug := strip isspace (re_sub_class not_word_space_hyphen "" (lower name)) in
      let slug := re_sub_plus space_or_hyphen "-" slug in
      strip ishyphen slug
  end.

(** The path [generate_safe_filename] builds, lines 53 and 54; the
    function itself, which makes the directory before it returns the path,
    comes with the file system below. *)
Definition safe_filename (name category : str) : str :=
  let safe_name :=
    lower (replace_char " " "_" (re_sub_class not_word_space_hyphen "" name)) in
  ("data/" : str) ++ safe_name ++ ("_" : str) ++ category ++ (".json" : str).

(** ** Exceptions, results and the log *)

(** A Python exception: its class name and what [str(e)] gives. *)
Record Exception := mkException { exc_class : str; exc_str : str }.

Inductive result (A : Type) : Type :=
| Ok (a : A)
| Raise (e : Exception).
Arguments Ok {A} a.
Arguments Raise {A} e.

Inductive Level := INFO | WARNING | ERROR.

(** One call of [logger.info], [logger.warning] or [logger.error]. *)
Record LogRecord := mkLog { levelname : Level; message : str }.

(** [str(n)] for a natural number. *)
Definition str_of_nat (n : nat) : str :=
  lit (DecimalString.NilZero.string_of_uint (Nat.to_uint n)).

(** ** The tree BeautifulSoup builds

    An element is a string of text or a tag with its attribute dictionary
    and its contents.  Attribute values are kept as written; the [class]
    attribute, which the tree builder stores as the list of its
    whitespace-separated tokens, is split where it is matched. *)
#[warnings="-register-all"]
Inductive PageElement : Type :=
| NavigableString (text : str)
| Tag (name : str) (attrs : list (str * str)) (contents : list PageElement).

Fixpoint dict_get {V : Type} (k : str) (d : list (str * V)) : option V :=
  match d with
  | [] => None
  | (k', v) :: r => if str_eqb k k' then Some v else dict_get k r
  end.

(** [tag.get(key, default)]. *)
Definition tag_get (e : PageElement) (key default : str) : str :=
  match e with
  | Tag _ attrs _ =>
      match dict_get key attrs with Some v => v | None => default end
  | NavigableString _ => default
  end.

(** [re.findall('\S+', s)]: the maximal runs of non-space characters;
    [cur] is the run being read, in reverse. *)
Fixpoint split_ws_from (cur : str) (s : str) : list str :=
  match s with
  | [] => match cur with [] => [] | _ => [rev cur] end
  | c :: r =>
      if isspace c
      then match cur with
           | [] => split_ws_from [] r
           | _ => rev cur :: split_ws_from [] r
           end
      else split_ws_from (c :: cur) r
  end.

Definition split_ws (s : str) : list str := split_ws_from [] s.

(** [sep.join(parts)]. *)
Fixpoint join (sep : str) (parts : list str) : str :=
  match parts with
  | [] => []
  | [p] => p
  | p :: r => p ++ sep ++ join sep r
  end.

(** The [class_] filter: the value matches one of the tokens of the class
    attribute, or all of them joined by single spaces. *)
Definition class_matches (class_ : str) (e : PageElement) : bool :=
  match e with
  | Tag _ attrs _ =>
      match dict_get (lit "class") attrs with
      | Some v =>
          let tokens := split_ws v in
          existsb (str_eqb class_) tokens || str_eqb class_ (join " " tokens)
      | None => false
      end
  | NavigableString _ => false
  end.

Definition tag_matches (name : str) (class_ : option str) (e : PageElement)
  : bool :=
  match e with
  | Tag n _ _ =>
      str_eqb n name
      && match class_ with Some c => class_matches c e | None => true end
  | NavigableString _ => false
  end.

(** [tag.descendants]: every element below the tag, in document order. *)
Fixpoint descendants (e : PageElement) : list PageElement :=
  match e with
  | NavigableString _ => []
  | Tag _ _ contents => flat_map (fun c => c :: descendants c) contents
  end.

Definition find_all (e : PageElement) (name : str) (class_ : option str)
  : list PageElement :=
  filter (tag_matches name class_) (descendants e).

Definition find (e : PageElement) (name : str) (class_ : option str)
  : option PageElement :=
  hd_error (find_all e name class_).

(** ** Pydantic models *)

Record Product := mkProduct {
  name : str;
  image_url : str;
  link : str;
  slug : option str
}.

Record ProductDetails := mkProductDetails { products : list Product }.

(** A Python [dict] with string keys and string values, in insertion
    order. *)
Definition dict := list (str * str).

(** A [Product] built from the keys of a dict, as the handlers do: the
    three required fields must be there, [slug] defaults to [None] and
    other keys are ignored.  A missing field raises a validation error. *)
Definition Product_of_dict (d : dict) : result Product :=
  match dict_get (lit "name") d, dict_get (lit "image_url") d,
        dict_get (lit "link") d with
  | Some n, Some u, Some l => Ok (mkProduct n u l (dict_get (lit "slug") d))
  | _, _, _ => Raise (mkException "ValidationError" "Field required")
  end.

(** ** The sample input *)

(** The literal is written with apostrophes where the source has double
    quotes; [dquote] puts the double quotes back. *)
Definition dquote (s : str) : str :=
  map (fun c => if Ascii.eqb c "'" then ascii_of_nat 34 else c) s.

Definition html_content : str := dquote "
<body class='__className_d28b8a'>
<div>
    <div>
        <div class='absolute inset-0 bg-white'>
            <div class='absolute bottom-0 left-0 right-0 z-50 flex w-full flex-col items-center justify-center pb-6 pt-6'>
                <div class='mb-3 px-3 text-center text-zinc-700'>
                    <h1 class='text-xl font-semibold'>Hublot Mp-10 Tourbillon</h1>
                </div>
                <div class='relative mb-4 w-full overflow-x-hidden py-3 min-h-[60px]'>
                    <div class='flex space-x-4 min-h-[60px]'>
                        <div class='inline-block'><div class='flex h-16 w-16 items-center justify-center rounded-full bg-white shadow-lg cursor-pointer overflow-hidden'><img src='https://dj5e08oeu5ym4.cloudfront.net/thumb/c2a36185-19be-48dc-80ca-a40cd1e930ce.jpg' alt='Hublot MP-10 Tourbillon' class='h-full w-full object-cover'></div></div>
                        <div class='inline-block'><div class='flex h-16 w-16 items-center justify-center rounded-full bg-white shadow-lg cursor-pointer overflow-hidden'><img src='https://dj5e08oeu5ym4.cloudfront.net/thumb/34b97066-cf29-4941-9d0c-581084f5981e.png' alt='Hublot Spirit Of Big Bang Full Magic Gold' class='h-full w-full object-cover'></div></div>
                        <div class='inline-block'><div class='flex h-16 w-16 items-center justify-center rounded-full bg-white shadow-lg cursor-pointer overflow-hidden'><img src='https://dj5e08oeu5ym4.cloudfront.net/thumb/165c3844-6301-4398-b8fd-7b15f0032e16.jpg' alt='Movado Alta Super Sub Sea Automatic' class='h-full w-full object-cover'></div></div>
                        <div class='inline-block'><div class='flex h-16 w-16 items-center justify-center rounded-full bg-white shadow-lg cursor-pointer overflow-hidden'><img src='https://dj5e08oeu5ym4.cloudfront.net/thumb/12df7df7-fecd-412e-bea5-02e92c312408.webp' alt='Swatch Obsidian Ink' class='h-full w-full object-cover'></div></div>
                        <div class='inline-block'><div class='flex h-16 w-16 items-center justify-center rounded-full bg-white shadow-lg cursor-pointer overflow-hidden'><img src='https://dj5e08oeu5ym4.cloudfront.net/thumb/eb5e18b9-400c-4c14-b752-86d2be88a482.avif' alt='Swatch Caramellissima' class='h-full w-full object-cover'></div></div>
                        <div class='inline-block'><div class='flex h-16 w-16 items-center justify-center rounded-full bg-white shadow-lg cursor-pointer overflow-hidden'><img src='https://dj5e08oeu5ym4.cloudfront.net/thumb/d670348a-0aee-4916-b011-a8943b1d7496.jpg' alt='Swatch Random Ghost' class='h-full w-full object-cover'></div></div>
                        <div class='inline-block'><div class='flex h-16 w-16 items-center justify-center rounded-full bg-white shadow-lg cursor-pointer overflow-hidden'><img src='https://dj5e08oeu5ym4.cloudfront.net/thumb/425b727b-c788-46b3-adb2-4cdfb9a39c2c.png' alt='Swatch Up In Smoke' class='h-full w-full object-cover'></div></div>
                        <div class='inline-block'><div class='flex h-16 w-16 items-center justify-center rounded-full bg-white shadow-lg cursor-pointer overflow-hidden'><img src='https://dj5e08oeu5ym4.cloudfront.net/thumb/cd3708cc-75fc-4f43-a8b3-011b061dba36.webp' alt='Swatch Cobalt Lagoon' class='h-full w-full object-cover'></div></div>
                    </div>
                </div>
            </div>
        </div>
    </div>
</div>
</body>
".

Definition watch_links : list str := [
  lit "https://www.shopar.ai/collection/watches?product=66618cf59d3fb1edda45d3ba&mode=3d";
  lit "https://www.shopar.ai/collection/watches?product=65f48bb59ae86ec2a67a435d&mode=3d";
  lit "https://www.shopar.ai/collection/watches?product=657218fa3c333cddc7d2341c&mode=3d";
  lit "https://www.shopar.ai/collection/watches?product=66ba01a114de953c80003cfc&mode=3d";
  lit "https://www.shopar.ai/collection/watches?product=66ba06f314de953c8000719c&mode=3d";
  lit "https://www.shopar.ai/collection/watches?product=67129023c904b2a2777efe9d&mode=3d";
  lit "https://www.shopar.ai/collection/watches?product=6712989ac904b2a2777f39ed&mode=3d";
  lit "https://www.shopar.ai/collection/watches?product=66ba071914de953c8000722f&mode=3d"
].

(** ** Extraction *)

Definition base_origin : str := "https://www.shopar.ai".

Definition is_empty (s : str) : bool :=
  match s with [] => true | _ => false end.

Section Extraction.

(** The two library calls of the extraction that can raise:
    [BeautifulSoup(html, 'html.parser')] and [urljoin(base, url)]. *)
Variable BeautifulSoup : str -> result PageElement.
Variable urljoin : str -> str -> result str.

(** The body of the [for] loop, from item [i] on.  [watches] is the list
    built so far and [log] the records written so far; an exception
    leaves the loop with the log as it is. *)
Fixpoint extract_loop (links : list str) (i : nat) (items : list PageElement)
    (watches : list dict) (log : list LogRecord)
  : result (list dict) * list LogRecord :=
  match items with
  | [] => (Ok watches, log)
  | item :: rest =>
      let skip :=
        extract_loop links (S i) rest watches
          (log ++ [mkLog WARNING
                     (("Skipping watch item " : str) ++ str_of_nat i
                      ++ (": No image or insufficient links" : str))]) in
      match find item "img" None with
      | Some img_tag =>
          if (i <? List.length links)%nat then
            let name := strip isspace (tag_get img_tag "alt" "Unknown Watch") in
            let img_url := strip isspace (tag_get img_tag "src" "") in
            let resolved :=
              if negb (is_empty img_url) && negb (startswith "http" img_url)
              then urljoin base_origin img_url
              else Ok img_url in
            match resolved with
            | Raise e => (Raise e, log)
            | Ok img_url =>
                if is_empty img_url then
                  extract_loop links (S i) rest watches
                    (log ++ [mkLog WARNING
                               (("No valid image URL for watch: " : str) ++ name)])
                else
                  let link := strip isspace (nth i links []) in
                  let slug := generate_slug name in
                  extract_loop links (S i) rest
                    (watches ++ [[(lit "name", name);
                                  (lit "image_url", img_url);
                                  (lit "link", link);
                                  (lit "slug", slug)]])
                    log
            end
          else skip
      | None => skip
      end
  end.

(** The [try] block of [extract_watch_data]. *)
Definition extract_body (html : str) (links : list str)
  : result (list dict) * list LogRecord :=
  match BeautifulSoup html with
  | Raise e => (Raise e, [])
  | Ok soup =>
      match find soup "div" (Some (lit "flex space-x-4 min-h-[60px]")) with
      | None =>
          (Ok [], [mkLog ERROR "Watch container not found in HTML"])
      | Some watch_container =>
          let watch_items :=
            find_all watch_container "div" (Some (lit "inline-block")) in
          let log :=
            [mkLog INFO (("Found " : str) ++ str_of_nat (List.length watch_items)
                         ++ (" watch items in HTML" : str))] in
          let log :=
            if (List.length watch_items =? List.length links)%nat then log
            else log ++ [mkLog WARNING
                           (("Mismatch: " : str)
                            ++ str_of_nat (List.length watch_items)
                            ++ (" watch items found, but " : str)
                            ++ str_of_nat (List.length links)
                            ++ (" links provided" : str))] in
          match extract_loop links 0 watch_items [] log with
          | (Ok watches, log) =>
              (Ok watches,
               log ++ [mkLog INFO
                         (("Successfully extracted " : str)
                          ++ str_of_nat (List.length watches)
                          ++ (" watches" : str))])
          | (Raise e, log) => (Raise e, log)
          end
      end
  end.

(** [extract_watch_data]: the value returned and the log records
    written.  The [except] clause turns any exception of the body into
    the empty list and one error record. *)
Definition extract_watch_data (html : str) (links : list str)
  : list dict * list LogRecord :=
  match extract_body html links with
  | (Ok watches, log) => (watches, log)
  | (Raise e, log) =>
      ([], log ++ [mkLog ERROR
                     (("Error extracting watch data: " : str) ++ exc_str e)])
  end.

End Extraction.

(** ** A model of the HTML tree builder

    [html_parser] stands for [BeautifulSoup(html, 'html.parser')] on
    documents made of start tags with attributes, end tags and text: the
    kind of document [html_content] is.  Comments, declarations,
    character references and raw-text elements are outside of it. *)
Module HtmlParser.

Inductive Token :=
| StartTag (name : str) (attrs : list (str * str))
| EndTag (name : str)
| Data (text : str).

(** The states of the tokenizer; names and values are accumulated in
    reverse. *)
Inductive State :=
| InData (text : str)
| TagOpen (text : str)
| EndName (n : str)
| StartName (n : str)
| BeforeAttr (n : str) (attrs : list (str * str))
| AttrName (n : str) (attrs : list (str * str)) (k : str)
| AfterAttrName (n : str) (attrs : list (str * str)) (k : str)
| BeforeValue (n : str) (attrs : list (str * str)) (k : str)
| QuotedValue (n : str) (attrs : list (str * str)) (k : str) (q : ascii) (v : str)
| UnquotedValue (n : str) (attrs : list (str * str)) (k : str) (v : str).

Definition is_letter (c : ascii) : bool :=
  in_range 65 90 c || in_range 97 122 c.

Definition is_quote (c : ascii) : bool :=
  (code c =? 34)%nat || (code c =? 39)%nat.

(** Assignment in the attribute dictionary: a repeated attribute keeps
    its place and takes the last value. *)
Fixpoint dict_set (k v : str) (d : list (str * str)) : list (str * str) :=
  match d with
  | [] => [(k, v)]
  | (k', v') :: r =>
      if str_eqb k k' then (k', v) :: r else (k', v') :: dict_set k v r
  end.

Definition set_attr (k v : str) (attrs : list (str * str)) :=
  dict_set (lower (rev k)) v attrs.

Definition flush (text : str) : list Token :=
  match text with [] => [] | _ => [Data (rev text)] end.

Definition start_tag (n : str) (attrs : list (str * str)) : Token :=
  StartTag (lower n) attrs.

Fixpoint tokenize (st : State) (s : str) : list Token :=
  match s with
  | [] => match st with InData t | TagOpen t => flush t | _ => [] end
  | c :: r =>
      match st with
      | InData t =>
          if Ascii.eqb c "<" then tokenize (TagOpen t) r
          else tokenize (InData (c :: t)) r
      | TagOpen t =>
          if is_letter c then flush t ++ tokenize (StartName [c]) r
          else if Ascii.eqb c "/" then flush t ++ tokenize (EndName []) r
          else tokenize (InData (c :: "<"%char :: t)) r
      | EndName n =>
          if Ascii.eqb c ">"
          then EndTag (lower (strip isspace (rev n))) :: tokenize (InData []) r
          else tokenize (EndName (c :: n)) r
      | StartName n =>
          if Ascii.eqb c ">"
          then start_tag (rev n) [] :: tokenize (InData []) r
          else if isspace c || Ascii.eqb c "/"
          then tokenize (BeforeAttr (rev n) []) r
          else tokenize (StartName (c :: n)) r
      | BeforeAttr n attrs =>
          if Ascii.eqb c ">"
          then start_tag n attrs :: tokenize (InData []) r
          else if isspace c || Ascii.eqb c "/"
          then tokenize (BeforeAttr n attrs) r
          else tokenize (AttrName n attrs [c]) r
      | AttrName n attrs k =>
          if Ascii.eqb c "=" then tokenize (BeforeValue n attrs k) r
          else if Ascii.eqb c ">"
          then start_tag n (set_attr k [] attrs) :: tokenize (InData []) r
          else if Ascii.eqb c "/"
          then tokenize (BeforeAttr n (set_attr k [] attrs)) r
          else if isspace c then tokenize (AfterAttrName n attrs k) r
          else tokenize (AttrName n attrs (c :: k)) r
      | AfterAttrName n attrs k =>
          if Ascii.eqb c "=" then tokenize (BeforeValue n attrs k) r
          else if Ascii.eqb c ">"
          then start_tag n (set_attr k [] attrs) :: tokenize (InData []) r
          else if isspace c then tokenize (AfterAttrName n attrs k) r
          else tokenize (AttrName n (set_attr k [] attrs) [c]) r
      | BeforeValue n attrs k =>
          if is_quote c then tokenize (QuotedValue n attrs k c []) r
          else if Ascii.eqb c ">"
          then start_tag n (set_attr k [] attrs) :: tokenize (InData []) r
          else if isspace c then tokenize (BeforeValue n attrs k) r
          else tokenize (UnquotedValue n attrs k [c]) r
      | QuotedValue n attrs k q v =>
          if Ascii.eqb c q
          then tokenize (BeforeAttr n (set_attr k (rev v) attrs)) r
          else tokenize (QuotedValue n attrs k q (c :: v)) r
      | UnquotedValue n attrs k v =>
          if Ascii.eqb c ">"
          then start_tag n (set_attr k (rev v) attrs) :: tokenize (InData []) r
          else if isspace c
          then tokenize (BeforeAttr n (set_attr k (rev v) attrs)) r
          else tokenize (UnquotedValue n attrs k (c :: v)) r
      end
  end.

(** An open tag: its name, its attributes and its contents so far, the
    last one first. *)
Definition Frame := (str * list (str * str) * list PageElement)%type.

Definition root_frame : Frame := (lit "[document]", [], []).

Definition add_child (e : PageElement) (stack : list Frame) : list Frame :=
  match stack with
  | (n, a, cs) :: r => (n, a, e :: cs) :: r
  | [] => []
  end.

Definition void_elements : list str :=
  [lit "area"; lit "base"; lit "br"; lit "col"; lit "embed"; lit "hr";
   lit "img"; lit "input"; lit "keygen"; lit "link"; lit "menuitem";
   lit "meta"; lit "param"; lit "source"; lit "track"; lit "wbr";
   lit "basefont"; lit "bgsound"; lit "command"; lit "frame"; lit "image";
   lit "isindex"; lit "nextid"; lit "spacer"].

(** Closing the open tags down to and including the most recent one
    called [name]; the root is never closed.  [done] is the tag just
    closed, to be added to the one below. *)
Fixpoint pop_to (name : str) (done : option PageElement) (stack : list Frame)
  : list Frame :=
  match stack with
  | [] => []
  | (n, a, cs) :: r =>
      let cs := match done with Some e => e :: cs | None => cs end in
      match r with
      | [] => [(n, a, cs)]
      | _ =>
          if str_eqb n name then add_child (Tag n a (rev cs)) r
          else pop_to name (Some (Tag n a (rev cs))) r
      end
  end.

Definition is_open (name : str) (stack : list Frame) : bool :=
  existsb (fun f => str_eqb (fst (fst f)) name) (removelast stack).

Fixpoint build (tokens : list Token) (stack : list Frame) : list Frame :=
  match tokens with
  | [] => stack
  | Data t :: r => build r (add_child (NavigableString t) stack)
  | StartTag n a :: r =>
      if existsb (str_eqb n) void_elements
      then build r (add_child (Tag n a []) stack)
      else build r ((n, a, []) :: stack)
  | EndTag n :: r =>
      if is_open n stack then build r (pop_to n None stack) else build r stack
  end.

(** The tags still open at the end of the document are closed. *)
Fixpoint close_all (done : option PageElement) (stack : list Frame)
  : PageElement :=
  match stack with
  | [] => Tag (lit "[document]") [] []
  | (n, a, cs) :: r =>
      let cs := match done with Some e => e :: cs | None => cs end in
      match r with
      | [] => Tag n a (rev cs)
      | _ => close_all (Some (Tag n a (rev cs))) r
      end
  end.

Definition html_parser (html : str) : result PageElement :=
  Ok (close_all None (build (tokenize (InData []) html) [root_frame])).

End HtmlParser.

(** ** The slug as the specification words it

    Lowercase, remove what is not a word character, a space or a hyphen,
    replace every run of spaces and hyphens by one hyphen, strip the
    hyphens at both ends: the steps of [generate_slug] without its test
    for the empty name and without its stripping of white space. *)
Definition slug_as_specified (text : str) : str :=
  let lowered := lower text in
  let cleaned := re_sub_class not_word_space_hyphen "" lowered in
  let collapsed := re_sub_plus space_or_hyphen "-" cleaned in
  strip ishyphen collapsed.

(** ** Extraction, item by item

    What the extraction is to return, stated on the items paired with the
    links by position.  [relative] is the test that sends an image source
    to [urljoin]. *)

(** The test of the code: a source that is not empty and does not begin
    with [http]. *)
Definition not_http (src : str) : bool :=
  negb (is_empty src) && negb (startswith "http" src).

(** An absolute-URL scheme: a letter, then letters, digits, [+], [-] or
    [.], then a colon. *)
Definition is_scheme_char (c : ascii) : bool :=
  in_range 65 90 c || in_range 97 122 c || in_range 48 57 c
  || Ascii.eqb c "+" || Ascii.eqb c "-" || Ascii.eqb c ".".

Fixpoint scheme_rest (s : str) : bool :=
  match s with
  | [] => false
  | c :: r => Ascii.eqb c ":" || (is_scheme_char c && scheme_rest r)
  end.

Definition has_scheme (s : str) : bool :=
  match s with
  | [] => false
  | c :: r => (in_range 65 90 c || in_range 97 122 c) && scheme_rest r
  end.

(** The test of the specification: a source without a scheme. *)
Definition lacks_scheme (src : str) : bool := negb (has_scheme src).

Definition watch_record (label url link_ : str) : dict :=
  [(lit "name", label); (lit "image_url", url); (lit "link", strip isspace link_);
   (lit "slug", generate_slug label)].

Section Records.

Variable urljoin : str -> str -> result str.
Variable relative : str -> bool.

(** One item with its link: no record, one record, or the exception of
    [urljoin]. *)
Definition item_record (item : PageElement) (link_ : str)
  : result (option dict) :=
  match find item "img" None with
  | None => Ok None
  | Some img =>
      let label := strip isspace (tag_get img "alt" "Unknown Watch") in
      let src := strip isspace (tag_get img "src" "") in
      match (if relative src then urljoin base_origin src else Ok src) with
      | Raise e => Raise e
      | Ok url =>
          if is_empty url then Ok None
          else Ok (Some (watch_record label url link_))
      end
  end.

Fixpoint records (pairs : list (PageElement * str)) : result (list dict) :=
  match pairs with
  | [] => Ok []
  | (item, link_) :: rest =>
      match item_record item link_ with
      | Raise e => Raise e
      | Ok o =>
          match records rest with
          | Raise e => Raise e
          | Ok rs => Ok (match o with Some d => d :: rs | None => rs end)
          end
      end
  end.

(** The list a document and a list of links are to give: nothing when
    the parser raises, when the container is missing or when an item
    raises; the records of the items otherwise. *)
Definition expected_watches (BeautifulSoup : str -> result PageElement)
    (html : str) (links : list str) : list dict :=
  match BeautifulSoup html with
  | Raise _ => []
  | Ok soup =>
      match find soup "div" (Some (lit "flex space-x-4 min-h-[60px]")) with
      | None => []
      | Some watch_container =>
          let watch_items :=
            find_all watch_container "div" (Some (lit "inline-block")) in
          match records (combine watch_items links) with
          | Raise _ => []
          | Ok rs => rs
          end
      end
  end.

End Records.

(** The extraction as the specification states it: an image source is
    resolved when it has no absolute-URL scheme. *)
Definition extraction_as_stated (BeautifulSoup : str -> result PageElement)
    (urljoin : str -> str -> result str) (html : str) (links : list str) : Prop :=
  fst (extract_watch_data BeautifulSoup urljoin html links)
  = expected_watches urljoin lacks_scheme BeautifulSoup html links.

(** What [urllib.parse.urljoin] gives for a base with an empty path and a
    reference that is one path segment: the segment below the root of the
    base. *)
Definition urljoin_segment (base url : str) : result str :=
  Ok (base ++ ("/" : str) ++ url).

(** A carousel of one item, whose image source is a relative path that
    begins with [http]. *)
Definition html_relative_http : str := dquote
  "<div class='flex space-x-4 min-h-[60px]'><div class='inline-block'><img src='httpx.png' alt='Watch X'></div></div>".

(** A carousel of two items. *)
Definition html_two_items : str := dquote
  "<div class='flex space-x-4 min-h-[60px]'><div class='inline-block'><img src='a.png' alt='Watch A'></div><div class='inline-block'><img src='b.png' alt='Watch B'></div></div>".

(** ** JSON text

    [json.dump(value, f, indent=4)] and [json.load(f)] on the values the
    models dump: strings, lists and dictionaries with string keys, and
    [None]. *)
#[warnings="-register-all"]
Inductive json : Type :=
| JNull
| JString (s : str)
| JArray (items : list json)
| JObject (members : list (str * json)).

Definition dq : ascii := ascii_of_nat 34.
Definition newline : ascii := ascii_of_nat 10.

Definition hex_digit (n : nat) : ascii := nth n (lit "0123456789abcdef") "0"%char.

(** One character of a string, as [ensure_ascii] writes it: the printable
    ASCII characters stand for themselves but the quote and the backslash;
    the rest is escaped. *)
Definition escape_char (c : ascii) : str :=
  let n := code c in
  if (n =? 34)%nat then ["\"%char; dq]
  else if (n =? 92)%nat then "\\"
  else if (n =? 10)%nat then "\n"
  else if (n =? 13)%nat then "\r"
  else if (n =? 9)%nat then "\t"
  else if (n =? 8)%nat then "\b"
  else if (n =? 12)%nat then "\f"
  else if in_range 32 126 c then [c]
  else ("\u00" : str) ++ [hex_digit (n / 16); hex_digit (n mod 16)].

Definition encode_string (s : str) : str :=
  dq :: flat_map escape_char s ++ [dq].

Definition newline_indent (level : nat) : str :=
  newline :: List.concat (repeat (lit "    ") level).

Fixpoint json_dumps (level : nat) (v : json) : str :=
  match v with
  | JNull => "null"
  | JString s => encode_string s
  | JArray [] => "[]"
  | JArray items =>
      ("[" : str) ++ newline_indent (S level)
      ++ join (("," : str) ++ newline_indent (S level))
           (map (json_dumps (S level)) items)
      ++ newline_indent level ++ ("]" : str)
  | JObject [] => "{}"
  | JObject members =>
      ("{" : str) ++ newline_indent (S level)
      ++ join (("," : str) ++ newline_indent (S level))
           (map (fun m => encode_string (fst m) ++ (": " : str)
                          ++ json_dumps (S level) (snd m)) members)
      ++ newline_indent level ++ ("}" : str)
  end.

Definition hex_value (c : ascii) : option nat :=
  if in_range 48 57 c then Some (code c - 48)
  else if in_range 97 102 c then Some (code c - 87)
  else if in_range 65 70 c then Some (code c - 55)
  else None.

(** The character a [\uXXXX] escape stands for; code points from 256 on
    are outside the strings of this development. *)
Definition unicode_escape (h1 h2 h3 h4 : ascii) : option ascii :=
  match hex_value h1, hex_value h2, hex_value h3, hex_value h4 with
  | Some 0, Some 0, Some a, Some b => Some (ascii_of_nat (16 * a + b))
  | _, _, _, _ => None
  end.

Definition simple_escape (c : ascii) : option ascii :=
  let n := code c in
  if (n =? 34)%nat then Some dq
  else if (n =? 92)%nat then Some "\"%char
  else if (n =? 47)%nat then Some "/"%char
  else if (n =? 110)%nat then Some (ascii_of_nat 10)
  else if (n =? 114)%nat then Some (ascii_of_nat 13)
  else if (n =? 116)%nat then Some (ascii_of_nat 9)
  else if (n =? 98)%nat then Some (ascii_of_nat 8)
  else if (n =? 102)%nat then Some (ascii_of_nat 12)
  else None.

Definition and_then (c : ascii) (r : option (str * str)) : option (str * str) :=
  match r with
  | Some (x, rest) => Some (c :: x, rest)
  | None => None
  end.

(** The decoder of a string, from after its opening quote: the string and
    what follows its closing quote.  Control characters must be escaped. *)
Fixpoint scanstring (s : str) : option (str * str) :=
  match s with
  | [] => None
  | c :: r =>
      if (code c =? 34)%nat then Some ([], r)
      else if (code c =? 92)%nat then
        match r with
        | [] => None
        | e :: r1 =>
            if (code e =? 117)%nat then
              match r1 with
              | h1 :: h2 :: h3 :: h4 :: r2 =>
                  match unicode_escape h1 h2 h3 h4 with
                  | Some c' => and_then c' (scanstring r2)
                  | None => None
                  end
              | _ => None
              end
            else
              match simple_escape e with
              | Some c' => and_then c' (scanstring r1)
              | None => None
              end
        end
      else if (code c <? 32)%nat then None
      else and_then c (scanstring r)
  end.

Definition json_space (c : ascii) : bool :=
  (code c =? 32)%nat || (code c =? 9)%nat || (code c =? 10)%nat
  || (code c =? 13)%nat.

Definition skip_ws (s : str) : str := lstrip json_space s.

(** The text after the character [c], when [c] comes next after white
    space. *)
Definition next_is (c : ascii) (s : str) : option str :=
  match skip_ws s with
  | d :: r => if Ascii.eqb d c then Some r else None
  | [] => None
  end.

Fixpoint parse_value (fuel : nat) (s : str) : option (json * str) :=
  match fuel with
  | 0 => None
  | S fuel =>
      match skip_ws s with
      | [] => None
      | c :: r =>
          if Ascii.eqb c dq then
            match scanstring r with
            | Some (x, r') => Some (JString x, r')
            | None => None
            end
          else if Ascii.eqb c "[" then
            match next_is "]" r with
            | Some r' => Some (JArray [], r')
            | None =>
                match parse_elements fuel r with
                | Some (items, r') => Some (JArray items, r')
                | None => None
                end
            end
          else if Ascii.eqb c "{" then
            match next_is "}" r with
            | Some r' => Some (JObject [], r')
            | None =>
                match parse_members fuel r with
                | Some (members, r') => Some (JObject members, r')
                | None => None
                end
            end
          else if startswith "null" (c :: r) then Some (JNull, skipn 3 r)
          else None
      end
  end
with parse_elements (fuel : nat) (s : str) : option (list json * str) :=
  match fuel with
  | 0 => None
  | S fuel =>
      match parse_value fuel s with
      | None => None
      | Some (v, r) =>
          match next_is "," r with
          | Some r' =>
              match parse_elements fuel r' with
              | Some (vs, r'') => Some (v :: vs, r'')
              | None => None
              end
          | None =>
              match next_is "]" r with
              | Some r' => Some ([v], r')
              | None => None
              end
          end
      end
  end
with parse_members (fuel : nat) (s : str) : option (list (str * json) * str) :=
  match fuel with
  | 0 => None
  | S fuel =>
      match next_is dq s with
      | None => None
      | Some r =>
          match scanstring r with
          | None => None
          | Some (k, r1) =>
              match next_is ":" r1 with
              | None => None
              | Some r2 =>
                  match parse_value fuel r2 with
                  | None => None
                  | Some (v, r3) =>
                      match next_is "," r3 with
                      | Some r4 =>
                          match parse_members fuel r4 with
                          | Some (ms, r5) => Some ((k, v) :: ms, r5)
                          | None => None
                          end
                      | None =>
                          match next_is "}" r3 with
                          | Some r4 => Some ([(k, v)], r4)
                          | None => None
                          end
                      end
                  end
              end
          end
      end
  end.

(** [json.loads(text)]: one value, and nothing but white space after it. *)
Definition json_loads (text : str) : option json :=
  match parse_value (S (List.length text)) text with
  | Some (v, rest) => if is_empty (skip_ws rest) then Some v else None
  | None => None
  end.

(** ** Saving *)

Inductive Model :=
| AProduct (p : Product)
| AProductDetails (d : ProductDetails).

Definition dump_product (p : Product) : json :=
  JObject ([(lit "name", JString (name p));
            (lit "image_url", JString (image_url p));
            (lit "link", JString (link p))]
           ++ match slug p with
              | Some s => [(lit "slug", JString s)]
              | None => []
              end).

(** [data.model_dump(exclude_none=True)]: the fields in the order of their
    declaration, those that are [None] left out. *)
Definition model_dump (data : Model) : json :=
  match data with
  | AProduct p => dump_product p
  | AProductDetails d => JObject [(lit "products", JArray (map dump_product (products d)))]
  end.

Definition json_str (v : option json) : result str :=
  match v with
  | Some (JString s) => Ok s
  | _ => Raise (mkException "ValidationError" "Input should be a valid string")
  end.

(** The product a parsed file holds: the three required fields must be
    strings; [slug] is a string, or [None] when the key is missing or
    null. *)
Definition Product_of_json (v : json) : result Product :=
  match v with
  | JObject members =>
      match json_str (dict_get (lit "name") members),
            json_str (dict_get (lit "image_url") members),
            json_str (dict_get (lit "link") members) with
      | Ok n, Ok u, Ok l =>
          match dict_get (lit "slug") members with
          | None | Some JNull => Ok (mkProduct n u l None)
          | Some (JString s) => Ok (mkProduct n u l (Some s))
          | Some _ =>
              Raise (mkException "ValidationError" "Input should be a valid string")
          end
      | _, _, _ => Raise (mkException "ValidationError" "Field required")
      end
  | _ => Raise (mkException "ValidationError" "Input should be an object")
  end.

(** The files: path and text, the last one written first. *)
Definition FileSystem := list (str * str).

Definition read_file (fs : FileSystem) (path : str) : option str :=
  dict_get path fs.

(** What the environment does with one call of [os.makedirs] or with one
    [open] and [json.dump]: it goes through, or it raises.  A write that
    raises leaves no file when [open] failed, and the first [n] characters
    of the text when the dump failed after them. *)
Inductive Outcome :=
| Succeeds
| Fails (e : Exception) (written : option nat).

(** The files, and what the environment will do with the calls to come, in
    their order; when the list is used up every call goes through.
    Directories are not kept: making one changes no file. *)
Record World := mkWorld { files : FileSystem; io : list Outcome }.

Definition next_outcome (w : World) : Outcome * World :=
  match io w with
  | [] => (Succeeds, w)
  | o :: rest => (o, mkWorld (files w) rest)
  end.

(** [os.makedirs(path, exist_ok=True)]. *)
Definition makedirs (path : str) (w : World) : result unit * World :=
  match next_outcome w with
  | (Succeeds, w) => (Ok tt, w)
  | (Fails e _, w) => (Raise e, w)
  end.

(** [with open(filename, 'w') as f: json.dump(..., f)], the text given. *)
Definition write_text (filename text : str) (w : World) : result unit * World :=
  match next_outcome w with
  | (Succeeds, w) => (Ok tt, mkWorld ((filename, text) :: files w) (io w))
  | (Fails e None, w) => (Raise e, w)
  | (Fails e (Some n), w) =>
      (Raise e, mkWorld ((filename, firstn n text) :: files w) (io w))
  end.

Definition is_slash (c : ascii) : bool := Ascii.eqb c "/".

(** [os.path.dirname] on a POSIX path: what comes before the last slash,
    without the slashes at its end unless it is made of slashes. *)
Definition dirname (path : str) : str :=
  let head := rev (lstrip (fun c => negb (is_slash c)) (rev path)) in
  if forallb is_slash head then head else rstrip is_slash head.

Definition generate_safe_filename (name category : str) (w : World)
  : result str * World :=
  let filename := safe_filename name category in
  match makedirs (dirname filename) w with
  | (Ok _, w) => (Ok filename, w)
  | (Raise e, w) => (Raise e, w)
  end.

(** [save_data]: the result, the world after it and the record logged.
    An exception of the write is logged and raised again. *)
Definition save_data (data : Model) (filename : str) (w : World)
  : result unit * World * list LogRecord :=
  let serialized_data := model_dump data in
  match write_text filename (json_dumps 0 serialized_data) w with
  | (Ok _, w) =>
      (Ok tt, w, [mkLog INFO (("Data saved to " : str) ++ filename)])
  | (Raise e, w) =>
      (Raise e, w,
       [mkLog ERROR (("Error saving data to " : str) ++ filename
                     ++ (": " : str) ++ exc_str e)])
  end.

(** ** API endpoints *)

Inductive Response (A : Type) : Type :=
| Return (body : A)
| HTTPException (status_code : nat) (detail : str)
| Unhandled (e : Exception).
Arguments Return {A} body.
Arguments HTTPException {A} status_code detail.
Arguments Unhandled {A} e.

(** [d[key]]. *)
Definition dict_item (d : dict) (key : str) : result str :=
  match dict_get key d with
  | Some v => Ok v
  | None => Raise (mkException "KeyError" key)
  end.

(** The products of a list of records, one after the other. *)
Fixpoint Products_of_dicts (watches : list dict) : result (list Product) :=
  match watches with
  | [] => Ok []
  | watch :: rest =>
      match Product_of_dict watch with
      | Raise e => Raise e
      | Ok p =>
          match Products_of_dicts rest with
          | Raise e => Raise e
          | Ok ps => Ok (p :: ps)
          end
      end
  end.

Section Handlers.

Variable BeautifulSoup : str -> result PageElement.
Variable urljoin : str -> str -> result str.

Definition get_watch_collection : Response ProductDetails :=
  let watches := fst (extract_watch_data BeautifulSoup urljoin html_content watch_links) in
  match watches with
  | [] => HTTPException 500 "Failed to process watch collection"
  | _ =>
      match Products_of_dicts watches with
      | Ok ps => Return (mkProductDetails ps)
      | Raise e => Unhandled e
      end
  end.

(** The loop of [get_watch_by_name]. *)
Fixpoint by_name_loop (query_name watch_name : str) (watches : list dict)
  : Response Product :=
  match watches with
  | [] =>
      HTTPException 404
        (("Watch '" : str) ++ query_name ++ ("' not found" : str))
  | watch :: rest =>
      match dict_item watch "name" with
      | Raise e => Unhandled e
      | Ok n =>
          if str_eqb (strip isspace (lower n)) watch_name then
            match Product_of_dict watch with
            | Ok p => Return p
            | Raise e => Unhandled e
            end
          else by_name_loop query_name watch_name rest
      end
  end.

Definition get_watch_by_name (query_name : str) : Response Product :=
  let watches := fst (extract_watch_data BeautifulSoup urljoin html_content watch_links) in
  match watches with
  | [] => HTTPException 500 "Failed to process watch collection"
  | _ =>
      let watch_name := lower (strip isspace query_name) in
      by_name_loop query_name watch_name watches
  end.

(** The loop of [save_watch_collection]. *)
Fixpoint save_loop (watches : list dict) (saved_files : list str)
    (w : World) : result (list str) * World :=
  match watches with
  | [] => (Ok saved_files, w)
  | watch :: rest =>
      match dict_item watch "name" with
      | Raise e => (Raise e, w)
      | Ok n =>
          match generate_safe_filename n "watch" w with
          | (Raise e, w) => (Raise e, w)
          | (Ok filename, w) =>
              match Product_of_dict watch with
              | Raise e => (Raise e, w)
              | Ok p =>
                  match save_data (AProduct p) filename w with
                  | (Raise e, w, _) => (Raise e, w)
                  | (Ok _, w, _) =>
                      save_loop rest (saved_files ++ [filename]) w
                  end
              end
          end
      end
  end.

Definition save_watch_collection (w : World) : Response str * World :=
  let watches := fst (extract_watch_data BeautifulSoup urljoin html_content watch_links) in
  match watches with
  | [] => (HTTPException 500 "Failed to process watch collection", w)
  | _ =>
      match generate_safe_filename "watch_collection" "watches" w with
      | (Raise e, w) => (Unhandled e, w)
      | (Ok collection_filename, w) =>
          match Products_of_dicts watches with
          | Raise e => (Unhandled e, w)
          | Ok ps =>
              match save_data (AProductDetails (mkProductDetails ps))
                      collection_filename w with
              | (Raise e, w, _) => (Unhandled e, w)
              | (Ok _, w, _) =>
                  match save_loop watches [] w with
                  | (Ok saved_files, w) =>
                      (Return (("Watch collection saved to " : str)
                               ++ collection_filename
                               ++ (" and individual files: " : str)
                               ++ join ", " saved_files),
                       w)
                  | (Raise e, w) => (Unhandled e, w)
                  end
              end
          end
      end
  end.

End Handlers.

(** ** Matching a name as the specification words it *)

(** Equality of two names once both are trimmed and put in lower case. *)
Definition same_name (a b : str) : bool :=
  str_eqb (lower (strip isspace a)) (lower (strip isspace b)).

(** The fuel that reading a value back takes. *)
Fixpoint json_size (v : json) : nat :=
  match v with
  | JNull | JString _ => 1
  | JArray items => S (list_sum (map (fun x => S (json_size x)) items))
  | JObject members => S (list_sum (map (fun m => S (json_size (snd m))) members))
  end.

(** ** What a saved file holds *)

(** An object that stands for the product: it has no null member, no
    [slug] member when the product has no slug, and validates to the
    product. *)
Definition holds_product (v : json) (p : Product) : Prop :=
  exists members,
    v = JObject members
    /\ Forall (fun m => snd m <> JNull) members
    /\ (slug p = None -> dict_get (lit "slug") members = None)
    /\ Product_of_json v = Ok p.

Definition file_holds_product (text : str) (p : Product) : Prop :=
  exists v, json_loads text = Some v /\ holds_product v p.

Definition file_holds_products (text : str) (ps : list Product) : Prop :=
  exists vs,
    json_loads text = Some (JObject [(lit "products", JArray vs)])
    /\ Forall2 holds_product vs ps.

(** The file [save_watch_collection] writes for one product, and the one
    it writes for all of them. *)
Definition product_file (p : Product) : str * str :=
  (safe_filename (name p) "watch",
   json_dumps 0 (model_dump (AProduct p))).

Definition collection_file (ps : list Product) : str * str :=
  (safe_filename "watch_collection" "watches",
   json_dumps 0 (model_dump (AProductDetails (mkProductDetails ps)))).

(** What a Save that stopped on an exception has left: nothing, or the
    file of the collection and then the files of the first [k] products;
    and before them at most one file cut short by the failing write. *)
Definition complete_files (ps : list Product) (k : option nat) : FileSystem :=
  match k with
  | None => []
  | Some k => rev (map product_file (firstn k ps)) ++ [collection_file ps]
  end.

Definition cut_short (partial : FileSystem) : Prop :=
  partial = [] \/ exists path text n, partial = [(path, firstn n text)].

(** ** The file name as the specification words it

    Every white-space character left by the substitution becomes an
    underscore. *)
Definition filename_as_specified (name category : str) : str :=
  let kept := re_sub_class not_word_space_hyphen "" name in
  let underscored := re_sub_class isspace "_" kept in
  ("data/" : str) ++ lower underscored ++ ("_" : str) ++ category
  ++ (".json" : str).

Definition tab : ascii := ascii_of_nat 9.

(** ** Notions the proofs use *)

(** What [generate_slug] computes, with the strippings merged into one. *)
Definition slug_normal_form (name : str) : str :=
  re_sub_plus space_or_hyphen "-"
    (strip space_or_hyphen (re_sub_class not_word_space_hyphen "" (lower name))).

(** The characters of a slug: fixed by [lower] and kept by the first
    substitution. *)
Definition slug_char (c : ascii) : Prop :=
  lower_char c = c /\ not_word_space_hyphen c = false.

(** Induction on a JSON value, through its items and members. *)
Section JsonInduction.

Variable P : json -> Prop.
Hypothesis P_null : P JNull.
Hypothesis P_string : forall s, P (JString s).
Hypothesis P_array : forall items, Forall P items -> P (JArray items).
Hypothesis P_object :
  forall members, Forall (fun m => P (snd m)) members -> P (JObject members).

Fixpoint json_induction (v : json) : P v :=
  match v with
  | JNull => P_null
  | JString s => P_string s
  | JArray items =>
      P_array items
        ((fix each (l : list json) : Forall P l :=
            match l with
            | [] => Forall_nil P
            | x :: r => Forall_cons x (json_induction x) (each r)
            end) items)
  | JObject members =>
      P_object members
        ((fix each (l : list (str * json)) : Forall (fun m => P (snd m)) l :=
            match l with
            | [] => Forall_nil _
            | m :: r => Forall_cons m (json_induction (snd m)) (each r)
            end) members)
  end.

End JsonInduction.

(** The first character of a written value is no white space and closes
    nothing. *)
Definition opens_value (c : ascii) : Prop :=
  json_space c = false /\ Ascii.eqb c "]" = false /\ Ascii.eqb c "}" = false.

(** The separator of items and members, a written member, and a value
    that is read back from its text. *)
Definition comma_indent (level : nat) : str :=
  ","%char :: newline_indent level.

Definition written_member (level : nat) (m : str * json) : str :=
  encode_string (fst m) ++ ":"%char :: " "%char :: json_dumps level (snd m).

Definition reads_back (v : json) : Prop :=
  forall level fuel rest, json_size v <= fuel ->
    parse_value fuel (json_dumps level v ++ rest) = Some (v, rest).

(** No record of the list has the name asked for. *)
Definition none_named (query_name : str) (watches : list dict) : Prop :=
  Forall (fun w => forall n, dict_get (lit "name") w = Some n ->
                             same_name n query_name = false) watches.

(** ** Shapes of slugs and of file names *)

(** No hyphen is followed by a hyphen. *)
Fixpoint no_double_hyphen (s : str) : bool :=
  match s with
  | a :: (b :: _) as r => negb (ishyphen a && ishyphen b) && no_double_hyphen r
  | _ => true
  end.

(** No two characters of the class follow each other. *)
Fixpoint no_adjacent (P : ascii -> bool) (s : str) : bool :=
  match s with
  | a :: (b :: _) as r => negb (P a && P b) && no_adjacent P r
  | _ => true
  end.

(** A character that cannot stand in the name part of a file name: a path
    separator, a dot or a space. *)
Definition path_char (c : ascii) : bool :=
  Ascii.eqb c "/" || Ascii.eqb c "\" || Ascii.eqb c "." || Ascii.eqb c " ".

(** ** Inputs for the extraction *)

(** [urljoin] as [urljoin_segment], but for a reference whose network
    location opens a bracket: there [urllib] raises [ValueError]. *)
Definition urljoin_bracket (base url : str) : result str :=
  if startswith "//[" url
  then Raise (mkException "ValueError" "Invalid IPv6 URL")
  else urljoin_segment base url.

(** A carousel of two items, the second with such a source. *)
Definition html_bracket_source : str := dquote
  "<div class='flex space-x-4 min-h-[60px]'><div class='inline-block'><img src='a.png' alt='Watch A'></div><div class='inline-block'><img src='//[x' alt='Watch B'></div></div>".

(** The records the extraction logs first and last. *)
Definition found_record (n : nat) : LogRecord :=
  mkLog INFO (("Found " : str) ++ str_of_nat n ++ (" watch items in HTML" : str)).

Definition mismatch_record (n m : nat) : LogRecord :=
  mkLog WARNING
    (("Mismatch: " : str) ++ str_of_nat n ++ (" watch items found, but " : str)
     ++ str_of_nat m ++ (" links provided" : str)).

Definition extracted_record (n : nat) : LogRecord :=
  mkLog INFO
    (("Successfully extracted " : str) ++ str_of_nat n ++ (" watches" : str)).

(** * Properties *)

(** ** Stripping and substitution *)

Lemma rstrip_cons (p : ascii -> bool) (c : ascii) (s : str) :
  rstrip p (c :: s) =
  if is_empty (rstrip p s) && p c then [] else c :: rstrip p s.
Proof.
  simpl. destruct (rstrip p s); simpl; [destruct (p c)|]; reflexivity.
Qed.

Lemma lstrip_rstrip_comm (p q : ascii -> bool) (s : str) :
  lstrip p (rstrip q s) = rstrip q (lstrip p s).
Proof.
  induction s as [|c r IH]; [reflexivity|].
  rewrite (rstrip_cons q).
  change (lstrip p (c :: r)) with (if p c then lstrip p r else c :: r).
  destruct (p c) eqn:Hp.
  - rewrite <- IH.
    destruct (is_empty (rstrip q r) && q c) eqn:E; simpl.
    + apply andb_true_iff in E as [E _].
      destruct (rstrip q r); [reflexivity|discriminate].
    + rewrite Hp. reflexivity.
  - rewrite rstrip_cons.
    destruct (is_empty (rstrip q r) && q c); simpl; [reflexivity|].
    rewrite Hp. reflexivity.
Qed.

Section Strip.

Variables p q : ascii -> bool.

Hypothesis p_sub_q : forall c, p c = true -> q c = true.

Lemma lstrip_lstrip_sub (s : str) : lstrip q (lstrip p s) = lstrip q s.
Proof.
  induction s as [|c r IH]; [reflexivity|]. simpl.
  destruct (p c) eqn:Hp.
  - rewrite (p_sub_q _ Hp). exact IH.
  - reflexivity.
Qed.

Lemma is_empty_true (s : str) : is_empty s = true -> s = [].
Proof. destruct s; [reflexivity|discriminate]. Qed.

Lemma rstrip_rstrip_sub (s : str) : rstrip q (rstrip p s) = rstrip q s.
Proof.
  induction s as [|c r IH]; [reflexivity|].
  rewrite (rstrip_cons p), (rstrip_cons q c r).
  destruct (is_empty (rstrip p r) && p c) eqn:E.
  - apply andb_true_iff in E as [E Hp].
    apply is_empty_true in E. rewrite E in IH.
    rewrite <- IH, (p_sub_q _ Hp). reflexivity.
  - rewrite rstrip_cons, IH. reflexivity.
Qed.

Lemma strip_strip_sub (s : str) : strip q (strip p s) = strip q s.
Proof.
  unfold strip.
  rewrite (lstrip_rstrip_comm q p), rstrip_rstrip_sub, lstrip_lstrip_sub.
  reflexivity.
Qed.

End Strip.

(** Replacing the runs of a class [P] by one character [h] of the class
    commutes with stripping a class [K] that holds [h] and lies within
    [P]. *)
Section Collapse.

Variables P K : ascii -> bool.
Variable h : ascii.
Hypothesis P_h : P h = true.
Hypothesis K_h : K h = true.
Hypothesis K_sub_P : forall c, K c = true -> P c = true.

Local Abbreviation run := (re_sub_run P [h]).

Lemma run_cons (b : bool) (c : ascii) (s : str) :
  run b (c :: s) =
  if P c then (if b then run true s else h :: run true s)
  else c :: run false s.
Proof. simpl. destruct (P c), b; reflexivity. Qed.

Lemma K_false (c : ascii) : P c = false -> K c = false.
Proof.
  intros Hc. destruct (K c) eqn:E; [|reflexivity].
  rewrite (K_sub_P _ E) in Hc. discriminate.
Qed.

Lemma run_true_lstrip (s : str) : run true s = run false (lstrip P s).
Proof.
  induction s as [|c r IH]; [reflexivity|].
  rewrite run_cons. simpl. destruct (P c) eqn:E; [exact IH|].
  rewrite run_cons, E. reflexivity.
Qed.

Lemma lstrip_run_true (s : str) : lstrip K (run true s) = run true s.
Proof.
  induction s as [|c r IH]; [reflexivity|].
  rewrite run_cons. destruct (P c) eqn:E; [exact IH|].
  simpl. rewrite (K_false _ E). reflexivity.
Qed.

Lemma lstrip_run (s : str) : lstrip K (run false s) = run false (lstrip P s).
Proof.
  destruct s as [|c r]; [reflexivity|].
  rewrite run_cons. cbn [lstrip]. destruct (P c) eqn:E; cbn [lstrip].
  - rewrite K_h, lstrip_run_true. apply run_true_lstrip.
  - rewrite (K_false _ E), run_cons, E. reflexivity.
Qed.

Lemma run_nil_all (s : str) (b : bool) : run b s = [] -> forallb P s = true.
Proof.
  revert b. induction s as [|c r IH]; intros b; [reflexivity|].
  rewrite run_cons. simpl. destruct (P c); [|discriminate].
  destruct b; [apply IH|discriminate].
Qed.

Lemma rstrip_all_nil (s : str) :
  forallb P (rstrip P s) = true -> rstrip P s = [].
Proof.
  induction s as [|c r IH]; [reflexivity|].
  rewrite rstrip_cons.
  destruct (is_empty (rstrip P r) && P c) eqn:E; [reflexivity|].
  simpl. intros Hall. apply andb_true_iff in Hall as [Hc Hr].
  rewrite (IH Hr), Hc in E. discriminate.
Qed.

Lemma is_empty_run_rstrip (b : bool) (s : str) :
  is_empty (run b (rstrip P s)) = is_empty (rstrip P s).
Proof.
  destruct (run b (rstrip P s)) eqn:E.
  - apply run_nil_all, rstrip_all_nil in E. rewrite E. reflexivity.
  - destruct (rstrip P s); [discriminate|reflexivity].
Qed.

Lemma rstrip_run (b : bool) (s : str) :
  rstrip K (run b s) = run b (rstrip P s).
Proof.
  revert b. induction s as [|c r IH]; intros b; [reflexivity|].
  rewrite (rstrip_cons P), run_cons.
  destruct (P c) eqn:E.
  - rewrite andb_true_r.
    destruct b.
    + rewrite IH.
      destruct (is_empty (rstrip P r)) eqn:Er.
      * apply is_empty_true in Er. rewrite Er. reflexivity.
      * rewrite run_cons, E. reflexivity.
    + rewrite rstrip_cons, IH, K_h, andb_true_r, is_empty_run_rstrip.
      destruct (is_empty (rstrip P r)); [reflexivity|].
      rewrite run_cons, E. reflexivity.
  - rewrite andb_false_r, rstrip_cons, (K_false _ E), andb_false_r, IH.
    rewrite run_cons, E. reflexivity.
Qed.

Lemma strip_run (s : str) :
  strip K (re_sub_plus P [h] s) = re_sub_plus P [h] (strip P s).
Proof.
  unfold strip, re_sub_plus.
  rewrite lstrip_run, rstrip_run. reflexivity.
Qed.

Lemma lstrip_P_run_true (s : str) : lstrip P (run true s) = run true s.
Proof.
  induction s as [|c r IH]; [reflexivity|].
  rewrite run_cons. destruct (P c) eqn:E; [exact IH|].
  simpl. rewrite E. reflexivity.
Qed.

Lemma run_run (b : bool) (s : str) : run false (run b s) = run b s.
Proof.
  revert b. induction s as [|c r IH]; intros b; [reflexivity|].
  rewrite run_cons. destruct (P c) eqn:E.
  - destruct b; [apply IH|].
    rewrite run_cons, P_h, run_true_lstrip, lstrip_P_run_true, IH.
    reflexivity.
  - rewrite run_cons, E, IH. reflexivity.
Qed.

Lemma re_sub_plus_idem (s : str) :
  re_sub_plus P [h] (re_sub_plus P [h] s) = re_sub_plus P [h] s.
Proof. apply (run_run false). Qed.

Lemma Forall_run (Q : ascii -> Prop) (b : bool) (s : str) :
  Q h -> Forall Q s -> Forall Q (run b s).
Proof.
  intros Qh Hs. revert b.
  induction Hs as [|c r Hc Hr IH]; intros b; [constructor|].
  rewrite run_cons. destruct (P c), b; auto.
Qed.

End Collapse.

(** ** The slug generator *)

Lemma lit_hyphen : lit "-" = ["-"%char].
Proof. reflexivity. Qed.

Lemma hyphen_is_sep : space_or_hyphen "-" = true.
Proof. reflexivity. Qed.

Lemma ishyphen_sep (c : ascii) : ishyphen c = true -> space_or_hyphen c = true.
Proof. unfold space_or_hyphen. intros ->. apply orb_true_r. Qed.

Lemma isspace_sep (c : ascii) : isspace c = true -> space_or_hyphen c = true.
Proof. unfold space_or_hyphen. intros ->. reflexivity. Qed.

Lemma lower_char_idem (c : ascii) : lower_char (lower_char c) = lower_char c.
Proof. destruct c as [[] [] [] [] [] [] [] []]; reflexivity. Qed.

Lemma strip_hyphen_collapse (s : str) :
  strip ishyphen (re_sub_plus space_or_hyphen ["-"%char] s)
  = re_sub_plus space_or_hyphen ["-"%char] (strip space_or_hyphen s).
Proof. apply strip_run; solve [reflexivity | exact ishyphen_sep]. Qed.

Lemma strip_sep_collapse (s : str) :
  strip space_or_hyphen (re_sub_plus space_or_hyphen ["-"%char] s)
  = re_sub_plus space_or_hyphen ["-"%char] (strip space_or_hyphen s).
Proof. apply strip_run; solve [reflexivity | auto]. Qed.

Lemma generate_slug_normal (name : str) :
  generate_slug name = slug_normal_form name.
Proof.
  destruct name as [|c r]; [reflexivity|].
  unfold generate_slug, slug_normal_form. cbv zeta. rewrite lit_hyphen.
  rewrite strip_hyphen_collapse.
  rewrite (strip_strip_sub isspace space_or_hyphen isspace_sep).
  reflexivity.
Qed.

Lemma slug_as_specified_normal (text : str) :
  slug_as_specified text = slug_normal_form text.
Proof.
  unfold slug_as_specified, slug_normal_form. cbv zeta. rewrite lit_hyphen.
  apply strip_hyphen_collapse.
Qed.

(** C3: [generate_slug] computes what the four steps of the specification
    give, on every string; the empty string gives the empty string, and
    the documented sample gives [hublot-mp-10-tourbillon]. *)
Theorem generate_slug_as_specified :
  (forall name : str, generate_slug name = slug_as_specified name)
  /\ generate_slug "" = ""
  /\ generate_slug "Hublot Mp-10 Tourbillon" = "hublot-mp-10-tourbillon".
Proof.
  split; [|split; reflexivity].
  intros name.
  rewrite generate_slug_normal, slug_as_specified_normal. reflexivity.
Qed.

Lemma Forall_lstrip (Q : ascii -> Prop) (p : ascii -> bool) (s : str) :
  Forall Q s -> Forall Q (lstrip p s).
Proof.
  induction 1 as [|c r Hc Hr IH]; simpl; [constructor|].
  destruct (p c); auto.
Qed.

Lemma Forall_rstrip (Q : ascii -> Prop) (p : ascii -> bool) (s : str) :
  Forall Q s -> Forall Q (rstrip p s).
Proof.
  induction 1 as [|c r Hc Hr IH]; [constructor|].
  rewrite rstrip_cons. destruct (is_empty (rstrip p r) && p c); auto.
Qed.

Lemma Forall_strip (Q : ascii -> Prop) (p : ascii -> bool) (s : str) :
  Forall Q s -> Forall Q (strip p s).
Proof. intros H. apply Forall_rstrip, Forall_lstrip, H. Qed.

Lemma re_sub_class_removes (Q : ascii -> Prop) (cls : ascii -> bool) (s : str) :
  Forall Q s ->
  Forall (fun c => Q c /\ cls c = false) (re_sub_class cls "" s).
Proof.
  induction 1 as [|c r Hc Hr IH]; [constructor|].
  unfold re_sub_class. simpl. destruct (cls c) eqn:E; [exact IH|].
  constructor; auto.
Qed.

Lemma re_sub_class_fixed (cls : ascii -> bool) (repl s : str) :
  Forall (fun c => cls c = false) s -> re_sub_class cls repl s = s.
Proof.
  induction 1 as [|c r Hc Hr IH]; [reflexivity|].
  unfold re_sub_class in *. simpl. rewrite Hc, IH. reflexivity.
Qed.

Lemma lower_fixed (s : str) :
  Forall (fun c => lower_char c = c) s -> lower s = s.
Proof.
  induction 1 as [|c r Hc Hr IH]; [reflexivity|].
  unfold lower in *. simpl. rewrite Hc, IH. reflexivity.
Qed.

Lemma Forall_lower (s : str) :
  Forall (fun c => lower_char c = c) (lower s).
Proof.
  induction s as [|c r IH]; constructor; [apply lower_char_idem|exact IH].
Qed.

Lemma slug_chars (name : str) : Forall slug_char (slug_normal_form name).
Proof.
  unfold slug_normal_form, re_sub_plus. rewrite lit_hyphen.
  apply Forall_run; [split; reflexivity|].
  apply Forall_strip, re_sub_class_removes, Forall_lower.
Qed.

Lemma slug_normal_form_idem (name : str) :
  slug_normal_form (slug_normal_form name) = slug_normal_form name.
Proof.
  pose proof (slug_chars name) as Hc.
  unfold slug_normal_form at 1.
  rewrite lower_fixed
    by (eapply Forall_impl; [|exact Hc]; intros c H; exact (proj1 H)).
  rewrite re_sub_class_fixed
    by (eapply Forall_impl; [|exact Hc]; intros c H; exact (proj2 H)).
  unfold slug_normal_form. rewrite lit_hyphen.
  rewrite strip_sep_collapse.
  rewrite (strip_strip_sub space_or_hyphen space_or_hyphen (fun c H => H)).
  apply re_sub_plus_idem. reflexivity.
Qed.

(** C7: the slug of a slug is that slug, and equal names have equal
    slugs. *)
Theorem generate_slug_idempotent (name other : str) :
  name = other ->
  generate_slug (generate_slug name) = generate_slug name
  /\ generate_slug name = generate_slug other.
Proof.
  intros <-. split; [|reflexivity].
  rewrite !generate_slug_normal. apply slug_normal_form_idem.
Qed.

Lemma generate_slug_idempotent_witness :
  generate_slug (generate_slug "  Hublot -- MP-10 Tourbillon! ")
  = generate_slug "  Hublot -- MP-10 Tourbillon! "
  /\ generate_slug "  Hublot -- MP-10 Tourbillon! "
     = generate_slug "  Hublot -- MP-10 Tourbillon! ".
Proof.
  exact (generate_slug_idempotent
           "  Hublot -- MP-10 Tourbillon! " "  Hublot -- MP-10 Tourbillon! "
           eq_refl).
Defined.

(** ** The extraction loop *)

Section ExtractionFacts.

Variable BeautifulSoup : str -> result PageElement.
Variable urljoin : str -> str -> result str.

Lemma skipn_nth (links : list str) (i : nat) :
  i < List.length links ->
  skipn i links = nth i links [] :: skipn (S i) links.
Proof.
  revert i. induction links as [|l r IH]; intros i Hi; simpl in Hi; [lia|].
  destruct i as [|i]; [reflexivity|].
  cbn [skipn nth]. rewrite (IH i) by lia. reflexivity.
Qed.

Lemma extract_loop_records (links : list str) (items : list PageElement) :
  forall i watches log,
    fst (extract_loop urljoin links i items watches log)
    = match records urljoin not_http (combine items (skipn i links)) with
      | Raise e => Raise e
      | Ok rs => Ok (watches ++ rs)
      end.
Proof.
  induction items as [|item rest IH]; intros i watches log.
  - simpl. rewrite app_nil_r. reflexivity.
  - cbn [extract_loop]. cbv zeta.
    destruct (Nat.ltb_spec i (List.length links)) as [Hi|Hi].
    + rewrite (skipn_nth links i Hi). cbn [combine records].
      unfold item_record.
      destruct (find item "img" None) as [img|];
        [|rewrite IH; destruct (records urljoin not_http _); reflexivity].
      cbv zeta. fold (not_http (strip isspace (tag_get img "src" ""))).
      destruct (if not_http (strip isspace (tag_get img "src" ""))
                then urljoin base_origin (strip isspace (tag_get img "src" ""))
                else Ok (strip isspace (tag_get img "src" ""))) as [url|e];
        [|reflexivity].
      destruct (is_empty url); rewrite IH;
        destruct (records urljoin not_http (combine rest (skipn (S i) links)));
        try reflexivity.
      rewrite <- app_assoc. reflexivity.
    + assert (Hskip : forall j, List.length links <= j -> skipn j links = [])
        by (intros j Hj; apply skipn_all2; exact Hj).
      rewrite (Hskip i Hi).
      assert (Hrest : fst (extract_loop urljoin links (S i) rest watches
                             (log ++ [mkLog WARNING
                               (("Skipping watch item " : str) ++ str_of_nat i
                                ++ (": No image or insufficient links" : str))]))
                      = Ok watches).
      { rewrite IH, (Hskip (S i)) by lia.
        destruct rest; simpl; rewrite app_nil_r; reflexivity. }
      destruct (find item "img" None); simpl; rewrite app_nil_r; exact Hrest.
Qed.

Lemma extract_watch_data_records (html : str) (links : list str) :
  fst (extract_watch_data BeautifulSoup urljoin html links)
  = expected_watches urljoin not_http BeautifulSoup html links.
Proof.
  unfold extract_watch_data, extract_body, expected_watches.
  destruct (BeautifulSoup html) as [soup|e]; [|reflexivity].
  destruct (find soup "div" _) as [container|]; [|reflexivity].
  cbv zeta.
  match goal with
  | |- context [extract_loop urljoin links 0 ?items [] ?log] =>
      pose proof (extract_loop_records links items 0 [] log) as H;
      destruct (extract_loop urljoin links 0 items [] log) as [[ws|e] log']
  end; simpl in H; cbn [skipn] in H;
    destruct (records urljoin not_http _); inversion H; reflexivity.
Qed.

Lemma records_shape (relative : str -> bool)
    (pairs : list (PageElement * str)) :
  forall rs, records urljoin relative pairs = Ok rs ->
    Forall (fun w => exists label url link_, w = watch_record label url link_) rs.
Proof.
  induction pairs as [|[item link_] rest IH]; intros rs H; simpl in H.
  - inversion H. constructor.
  - destruct (item_record urljoin relative item link_) as [o|e] eqn:Ei;
      [|discriminate].
    destruct (records urljoin relative rest) as [rs'|e]; [|discriminate].
    inversion H; subst. specialize (IH rs' eq_refl).
    destruct o as [d|]; [|exact IH].
    constructor; [|exact IH].
    unfold item_record in Ei.
    destruct (find item "img" None) as [img|]; [|discriminate].
    cbv zeta in Ei.
    destruct (if relative _ then _ else _) as [url|e]; [|discriminate].
    destruct (is_empty url); inversion Ei. eauto.
Qed.

Lemma records_length (relative : str -> bool)
    (pairs : list (PageElement * str)) :
  forall rs, records urljoin relative pairs = Ok rs ->
    List.length rs <= List.length pairs.
Proof.
  induction pairs as [|[item link_] rest IH]; intros rs H; simpl in H.
  - inversion H. simpl. lia.
  - destruct (item_record urljoin relative item link_) as [o|e];
      [|discriminate].
    destruct (records urljoin relative rest) as [rs'|e]; [|discriminate].
    inversion H; subst. specialize (IH rs' eq_refl).
    destruct o; simpl; lia.
Qed.

Lemma records_In (relative : str -> bool)
    (pairs : list (PageElement * str)) :
  forall rs item link_ d,
    records urljoin relative pairs = Ok rs ->
    In (item, link_) pairs ->
    item_record urljoin relative item link_ = Ok (Some d) ->
    In d rs.
Proof.
  induction pairs as [|[item0 link0] rest IH]; intros rs item link_ d H Hin Hd;
    simpl in H; [destruct Hin|].
  destruct (item_record urljoin relative item0 link0) as [o|e] eqn:Ei;
    [|discriminate].
  destruct (records urljoin relative rest) as [rs'|e]; [|discriminate].
  inversion H; subst. destruct Hin as [Heq|Hin].
  - inversion Heq; subst. rewrite Hd in Ei. inversion Ei; subst.
    left. reflexivity.
  - specialize (IH rs' item link_ d eq_refl Hin Hd).
    destruct o; [right|]; exact IH.
Qed.

Lemma extract_loop_log (links : list str) (items : list PageElement) :
  forall i watches log, exists more,
    snd (extract_loop urljoin links i items watches log) = log ++ more.
Proof.
  induction items as [|item rest IH]; intros i watches log.
  - exists []. simpl. rewrite app_nil_r. reflexivity.
  - cbn [extract_loop]. cbv zeta.
    assert (Hskip : forall entry, exists more,
               snd (extract_loop urljoin links (S i) rest watches (log ++ [entry]))
               = log ++ more).
    { intros entry. destruct (IH (S i) watches (log ++ [entry])) as [more Hm].
      exists (entry :: more). rewrite Hm, <- app_assoc. reflexivity. }
    destruct (find item "img" None) as [img|]; [|apply Hskip].
    destruct (i <? List.length links)%nat; [|apply Hskip].
    match goal with
    | |- context [match ?r with Ok _ => _ | Raise _ => _ end] =>
        destruct r as [url|e]
    end.
    + destruct (is_empty url); [apply Hskip|apply IH].
    + exists []. simpl. rewrite app_nil_r. reflexivity.
Qed.

Lemma extract_watch_data_log (html : str) (links : list str)
    (soup watch_container : PageElement) :
  BeautifulSoup html = Ok soup ->
  find soup "div" (Some (lit "flex space-x-4 min-h-[60px]")) = Some watch_container ->
  let n := List.length (find_all watch_container "div" (Some (lit "inline-block"))) in
  exists more,
    snd (extract_watch_data BeautifulSoup urljoin html links)
    = [mkLog INFO (("Found " : str) ++ str_of_nat n
                   ++ (" watch items in HTML" : str))]
      ++ (if (n =? List.length links)%nat then []
          else [mkLog WARNING
                  (("Mismatch: " : str) ++ str_of_nat n
                   ++ (" watch items found, but " : str)
                   ++ str_of_nat (List.length links)
                   ++ (" links provided" : str))])
      ++ more.
Proof.
  intros Hsoup Hfind. cbv zeta.
  unfold extract_watch_data, extract_body. rewrite Hsoup, Hfind. cbv zeta.
  match goal with
  | |- context [extract_loop urljoin links 0 ?items [] ?log] =>
      destruct (extract_loop_log links items 0 [] log) as [more Hm];
      destruct (extract_loop urljoin links 0 items [] log) as [[ws|e] l]
  end; simpl in Hm; subst l; eexists; cbn [snd];
    destruct (_ =? _)%nat; cbn [app]; rewrite <- ?app_assoc; cbn [app];
    reflexivity.
Qed.

End ExtractionFacts.

(** ** The extraction *)

(** C1, as amended: on every document and list of links the extraction
    returns the records of the items paired with the links by position.
    An item without an image gives no record.  For an item with an image
    the label is the [alt] attribute, [Unknown Watch] when there is none,
    stripped; the source is the [src] attribute stripped; a source that is
    not empty and does not begin with [http] is resolved against
    [https://www.shopar.ai], any other is kept; an empty result gives no
    record; otherwise the record holds the label as [name], the URL as
    [image_url], the stripped link of the same index as [link] and
    [generate_slug] of the label as [slug].  An exception of the parser or
    of [urljoin] gives the empty list. *)
Theorem extract_watch_data_item_records
    (BeautifulSoup : str -> result PageElement)
    (urljoin : str -> str -> result str) (html : str) (links : list str) :
  fst (extract_watch_data BeautifulSoup urljoin html links)
  = expected_watches urljoin not_http BeautifulSoup html links.
Proof. apply extract_watch_data_records. Qed.

(** C1, as stated, fails: the source [httpx.png] has no scheme, and the
    extraction keeps it as it is where the statement has it resolved to
    [https://www.shopar.ai/httpx.png]. *)
Lemma extraction_as_stated_fails :
  ~ extraction_as_stated HtmlParser.html_parser urljoin_segment
      html_relative_http [lit "https://www.shopar.ai/x"].
Proof. unfold extraction_as_stated. vm_compute. discriminate. Qed.

(** C2: on the embedded document and the eight embedded links the
    extraction returns eight records, in the order of the document; the
    first has the name [Hublot MP-10 Tourbillon] and the slug
    [hublot-mp-10-tourbillon].  No image source of the document goes
    through [urljoin], so this holds whatever [urljoin] does. *)
Theorem extract_sample_document (urljoin : str -> str -> result str) :
  let watches :=
    fst (extract_watch_data HtmlParser.html_parser urljoin
           html_content watch_links) in
  List.length watches = 8
  /\ map (dict_get (lit "name")) watches
     = [Some (lit "Hublot MP-10 Tourbillon");
        Some (lit "Hublot Spirit Of Big Bang Full Magic Gold");
        Some (lit "Movado Alta Super Sub Sea Automatic");
        Some (lit "Swatch Obsidian Ink");
        Some (lit "Swatch Caramellissima");
        Some (lit "Swatch Random Ghost");
        Some (lit "Swatch Up In Smoke");
        Some (lit "Swatch Cobalt Lagoon")]
  /\ map (dict_get (lit "link")) watches = map Some watch_links
  /\ hd_error watches
     = Some (watch_record "Hublot MP-10 Tourbillon"
               "https://dj5e08oeu5ym4.cloudfront.net/thumb/c2a36185-19be-48dc-80ca-a40cd1e930ce.jpg"
               "https://www.shopar.ai/collection/watches?product=66618cf59d3fb1edda45d3ba&mode=3d")
  /\ option_map (dict_get (lit "slug")) (hd_error watches)
     = Some (Some (lit "hublot-mp-10-tourbillon")).
Proof. vm_compute. repeat split. Qed.

(** C4: the extraction returns a list and a log on every input.  When the
    parser raises, when the container is missing, and when anything in the
    body raises, the list is empty and the log ends with an error
    record. *)
Theorem extract_watch_data_never_raises
    (BeautifulSoup : str -> result PageElement)
    (urljoin : str -> str -> result str) (html : str) (links : list str) :
  let failure e :=
    mkLog ERROR (("Error extracting watch data: " : str) ++ exc_str e) in
  (exists watches log,
      extract_watch_data BeautifulSoup urljoin html links = (watches, log))
  /\ match BeautifulSoup html with
     | Raise e =>
         extract_watch_data BeautifulSoup urljoin html links = ([], [failure e])
     | Ok soup =>
         match find soup "div" (Some (lit "flex space-x-4 min-h-[60px]")) with
         | None =>
             extract_watch_data BeautifulSoup urljoin html links
             = ([], [mkLog ERROR "Watch container not found in HTML"])
         | Some _ => True
         end
     end
  /\ match extract_body BeautifulSoup urljoin html links with
     | (Raise e, log) =>
         extract_watch_data BeautifulSoup urljoin html links
         = ([], log ++ [failure e])
     | (Ok watches, log) =>
         extract_watch_data BeautifulSoup urljoin html links = (watches, log)
     end.
Proof.
  cbv zeta. split; [|split].
  - destruct (extract_watch_data BeautifulSoup urljoin html links) as [ws l].
    exists ws, l. reflexivity.
  - unfold extract_watch_data, extract_body.
    destruct (BeautifulSoup html) as [soup|e]; [|reflexivity].
    destruct (find soup "div" _); [exact I|reflexivity].
  - unfold extract_watch_data.
    destruct (extract_body BeautifulSoup urljoin html links) as [[ws|e] l];
      reflexivity.
Qed.

(** C5: when there are fewer links than items, the mismatch is logged as
    a warning and the extraction goes on: the items from the number of
    links on give no record, and the result is what the items before them
    give with the links.  Each of those that has an image and a non-empty
    image URL has its record in the result, unless [urljoin] raises. *)
Theorem fewer_links_than_items
    (BeautifulSoup : str -> result PageElement)
    (urljoin : str -> str -> result str) (html : str) (links : list str)
    (soup watch_container : PageElement) :
  BeautifulSoup html = Ok soup ->
  find soup "div" (Some (lit "flex space-x-4 min-h-[60px]")) = Some watch_container ->
  List.length links
  < List.length (find_all watch_container "div" (Some (lit "inline-block"))) ->
  let watch_items := find_all watch_container "div" (Some (lit "inline-block")) in
  let in_range := firstn (List.length links) watch_items in
  let watches := fst (extract_watch_data BeautifulSoup urljoin html links) in
  watches = match records urljoin not_http (combine in_range links) with
            | Ok rs => rs
            | Raise _ => []
            end
  /\ List.length watches < List.length watch_items
  /\ In (mkLog WARNING
           (("Mismatch: " : str) ++ str_of_nat (List.length watch_items)
            ++ (" watch items found, but " : str)
            ++ str_of_nat (List.length links) ++ (" links provided" : str)))
        (snd (extract_watch_data BeautifulSoup urljoin html links))
  /\ (forall rs, records urljoin not_http (combine in_range links) = Ok rs ->
      forall i item d,
        i < List.length links ->
        nth_error watch_items i = Some item ->
        item_record urljoin not_http item (nth i links []) = Ok (Some d) ->
        In d watches).
Proof.
  intros Hsoup Hfind Hlen. cbv zeta.
  destruct (extract_watch_data_log BeautifulSoup urljoin html links
              soup watch_container Hsoup Hfind) as [more Hlog].
  cbv zeta in Hlog. rewrite Hlog. clear Hlog.
  rewrite extract_watch_data_records. unfold expected_watches.
  rewrite Hsoup, Hfind. cbv zeta.
  rewrite <- combine_firstn_r.
  set (items := find_all watch_container "div" (Some (lit "inline-block"))) in *.
  assert (Hwarn : (List.length items =? List.length links)%nat = false)
    by (apply Nat.eqb_neq; lia).
  rewrite Hwarn.
  assert (Hin : forall a b (l : list LogRecord), In b ([a] ++ [b] ++ l))
    by (intros; right; left; reflexivity).
  destruct (records urljoin not_http (combine items links)) as [rs|e] eqn:Er.
  - split; [reflexivity|]. split; [|split; [apply Hin|]].
    + apply records_length in Er. rewrite length_combine in Er. lia.
    + intros rs' Hrs' i item d Hi Hitem Hd. inversion Hrs'; subst rs'.
      apply (records_In urljoin not_http _ _ item (nth i links []) d Er);
        [|exact Hd].
      assert (Hpair : nth_error (combine items links) i
                      = Some (item, nth i links [])).
      { clear - Hi Hitem. revert i links Hi Hitem.
        induction items as [|x xs IH]; intros i links Hi Hitem.
        - destruct i; discriminate.
        - destruct links as [|l ls]; [simpl in Hi; lia|].
          destruct i as [|i]; simpl in *.
          + inversion Hitem. reflexivity.
          + apply IH; [lia|exact Hitem]. }
      apply nth_error_In in Hpair. exact Hpair.
  - split; [reflexivity|]. split; [simpl; lia|]. split; [apply Hin|].
    intros rs' H. discriminate.
Qed.

Lemma fewer_links_than_items_witness :
  let links := [lit "https://www.shopar.ai/a"] in
  let watches :=
    fst (extract_watch_data HtmlParser.html_parser urljoin_segment
           html_two_items links) in
  watches = [watch_record "Watch A" "https://www.shopar.ai/a.png"
               "https://www.shopar.ai/a"]
  /\ List.length watches < 2.
Proof.
  cbv zeta.
  edestruct (fewer_links_than_items HtmlParser.html_parser urljoin_segment
               html_two_items [lit "https://www.shopar.ai/a"])
    as (Hw & Hl & _).
  - vm_compute. reflexivity.
  - vm_compute. reflexivity.
  - vm_compute. lia.
  - split; [exact Hw|exact Hl].
Defined.

(** C10: every record the extraction returns has its [slug] key, holding
    [generate_slug] of its [name]; the product built from it has a slug
    that is not [None]. *)
Theorem extracted_records_have_slug
    (BeautifulSoup : str -> result PageElement)
    (urljoin : str -> str -> result str) (html : str) (links : list str) :
  Forall (fun watch =>
            exists label,
              dict_get (lit "name") watch = Some label
              /\ dict_get (lit "slug") watch = Some (generate_slug label)
              /\ exists product,
                   Product_of_dict watch = Ok product
                   /\ name product = label
                   /\ slug product = Some (generate_slug label))
         (fst (extract_watch_data BeautifulSoup urljoin html links)).
Proof.
  rewrite extract_watch_data_records. unfold expected_watches.
  destruct (BeautifulSoup html) as [soup|e]; [|constructor].
  destruct (find soup "div" _) as [container|]; [|constructor].
  cbv zeta.
  destruct (records urljoin not_http _) as [rs|e] eqn:Er; [|constructor].
  apply records_shape in Er.
  eapply Forall_impl; [|exact Er].
  intros w (label & url & link_ & ->).
  exists label. repeat split. eexists. repeat split.
Qed.

(** ** JSON text read back *)

Lemma scanstring_escape_char (c : ascii) (t : str) :
  scanstring (escape_char c ++ t) = and_then c (scanstring t).
Proof. destruct c as [[] [] [] [] [] [] [] []]; reflexivity. Qed.

Lemma scanstring_encoded (s rest : str) :
  scanstring (flat_map escape_char s ++ dq :: rest) = Some (s, rest).
Proof.
  induction s as [|c r IH]; [reflexivity|].
  cbn [flat_map]. rewrite <- app_assoc, scanstring_escape_char, IH.
  reflexivity.
Qed.

Lemma encode_string_app (s rest : str) :
  encode_string s ++ rest = dq :: flat_map escape_char s ++ dq :: rest.
Proof. unfold encode_string. simpl. rewrite <- app_assoc. reflexivity. Qed.

Lemma skip_ws_newline_indent (level : nat) (t : str) :
  skip_ws (newline_indent level ++ t) = skip_ws t.
Proof.
  unfold newline_indent. cbn [app]. unfold skip_ws at 1. cbn [lstrip].
  change (json_space newline) with true. cbv iota.
  induction level as [|n IH]; [reflexivity|].
  cbn [repeat List.concat]. rewrite <- app_assoc. exact IH.
Qed.

Lemma json_dumps_head (level : nat) (v : json) :
  exists c r, json_dumps level v = c :: r /\ opens_value c.
Proof.
  unfold opens_value.
  destruct v as [|s|[|x xs]|[|m ms]]; eexists; eexists;
    (split; [reflexivity|]); repeat split.
Qed.

Lemma skip_ws_head (c : ascii) (r : str) :
  json_space c = false -> skip_ws (c :: r) = c :: r.
Proof. intros H. unfold skip_ws. simpl. rewrite H. reflexivity. Qed.

Lemma next_is_indent (c : ascii) (level : nat) (t : str) :
  next_is c (newline_indent level ++ t) = next_is c t.
Proof. unfold next_is. rewrite skip_ws_newline_indent. reflexivity. Qed.

Lemma next_is_head (c d : ascii) (t : str) :
  json_space d = false ->
  next_is c (d :: t) = if Ascii.eqb d c then Some t else None.
Proof. intros H. unfold next_is, skip_ws. simpl. rewrite H. reflexivity. Qed.

Lemma parse_value_skip (fuel : nat) (s : str) :
  parse_value fuel (skip_ws s) = parse_value fuel s.
Proof.
  destruct fuel; [reflexivity|]. cbn [parse_value].
  unfold skip_ws. rewrite (lstrip_lstrip_sub json_space json_space (fun c H => H)).
  reflexivity.
Qed.

Lemma parse_value_indent (fuel level : nat) (t : str) :
  parse_value fuel (newline_indent level ++ t) = parse_value fuel t.
Proof.
  rewrite <- parse_value_skip, skip_ws_newline_indent. apply parse_value_skip.
Qed.

Lemma parse_value_space (fuel : nat) (t : str) :
  parse_value fuel (" "%char :: t) = parse_value fuel t.
Proof.
  rewrite <- (parse_value_skip fuel (" "%char :: t)).
  change (skip_ws (" "%char :: t)) with (skip_ws t). apply parse_value_skip.
Qed.

Lemma join_cons2 (sep a b : str) (r : list str) :
  join sep (a :: b :: r) = a ++ sep ++ join sep (b :: r).
Proof. reflexivity. Qed.

Lemma join_head (sep a : str) (r : list str) :
  exists tail, join sep (a :: r) = a ++ tail.
Proof.
  destruct r as [|b r].
  - exists []. simpl. rewrite app_nil_r. reflexivity.
  - eexists. apply join_cons2.
Qed.

Lemma parse_elements_written (level : nat) (items : list json) :
  Forall reads_back items -> items <> [] ->
  forall fuel rest,
    list_sum (map (fun x => S (json_size x)) items) <= fuel ->
    parse_elements fuel
      (newline_indent (S level)
       ++ join (comma_indent (S level)) (map (json_dumps (S level)) items)
       ++ newline_indent level ++ "]"%char :: rest)
    = Some (items, rest).
Proof.
  induction 1 as [|x xs Hx Hxs IH]; intros Hne fuel rest Hfuel; [congruence|].
  cbn [map list_sum] in Hfuel.
  destruct fuel as [|fuel]; [simpl in Hfuel; lia|].
  cbn [parse_elements]. rewrite parse_value_indent.
  destruct xs as [|y ys].
  - cbn [map join]. rewrite (Hx (S level) fuel) by (simpl in Hfuel; lia).
    rewrite !next_is_indent. reflexivity.
  - cbn [map]. rewrite join_cons2, <- !app_assoc.
    rewrite (Hx (S level) fuel) by (simpl in Hfuel; lia).
    unfold comma_indent at 1. cbn [app].
    rewrite next_is_head by reflexivity.
    change (Ascii.eqb "," ",") with true. cbv iota.
    cbn [map] in IH.
    rewrite IH; [reflexivity|discriminate|simpl in Hfuel |- *; lia].
Qed.

Lemma parse_members_written (level : nat) (members : list (str * json)) :
  Forall (fun m => reads_back (snd m)) members -> members <> [] ->
  forall fuel rest,
    list_sum (map (fun m => S (json_size (snd m))) members) <= fuel ->
    parse_members fuel
      (newline_indent (S level)
       ++ join (comma_indent (S level)) (map (written_member (S level)) members)
       ++ newline_indent level ++ "}"%char :: rest)
    = Some (members, rest).
Proof.
  induction 1 as [|[k v] ms Hm Hms IH]; intros Hne fuel rest Hfuel; [congruence|].
  cbn [map list_sum snd fst] in Hfuel. cbn [snd] in Hm.
  destruct fuel as [|fuel]; [simpl in Hfuel; lia|].
  cbn [parse_members]. rewrite next_is_indent.
  assert (Hkey : forall tail,
             written_member (S level) (k, v) ++ tail
             = dq :: flat_map escape_char k
                 ++ dq :: ":"%char :: " "%char :: json_dumps (S level) v ++ tail).
  { intros tail. unfold written_member, encode_string. cbn [fst snd app].
    rewrite <- !app_assoc. reflexivity. }
  destruct ms as [|m' ms'].
  - cbn [map join]. rewrite Hkey.
    rewrite next_is_head by reflexivity.
    change (Ascii.eqb dq dq) with true. cbv iota.
    rewrite scanstring_encoded.
    rewrite next_is_head by reflexivity.
    change (Ascii.eqb ":" ":") with true. cbv iota.
    rewrite parse_value_space, (Hm (S level) fuel) by (simpl in Hfuel; lia).
    rewrite !next_is_indent. reflexivity.
  - cbn [map]. rewrite join_cons2, <- app_assoc, Hkey.
    rewrite next_is_head by reflexivity.
    change (Ascii.eqb dq dq) with true. cbv iota.
    rewrite scanstring_encoded.
    rewrite next_is_head by reflexivity.
    change (Ascii.eqb ":" ":") with true. cbv iota.
    rewrite <- app_assoc.
    rewrite parse_value_space, (Hm (S level) fuel) by (simpl in Hfuel; lia).
    unfold comma_indent at 1. cbn [app].
    rewrite next_is_head by reflexivity.
    change (Ascii.eqb "," ",") with true. cbv iota.
    cbn [map] in IH.
    rewrite IH; [reflexivity|discriminate|simpl in Hfuel |- *; lia].
Qed.

Lemma json_dumps_array (level : nat) (x : json) (xs : list json) (rest : str) :
  json_dumps level (JArray (x :: xs)) ++ rest
  = "["%char :: newline_indent (S level)
      ++ join (comma_indent (S level)) (map (json_dumps (S level)) (x :: xs))
      ++ newline_indent level ++ "]"%char :: rest.
Proof.
  cbn [json_dumps]. cbn [lit list_ascii_of_string app].
  rewrite <- !app_assoc. reflexivity.
Qed.

Lemma json_dumps_object (level : nat) (m : str * json)
    (ms : list (str * json)) (rest : str) :
  json_dumps level (JObject (m :: ms)) ++ rest
  = "{"%char :: newline_indent (S level)
      ++ join (comma_indent (S level)) (map (written_member (S level)) (m :: ms))
      ++ newline_indent level ++ "}"%char :: rest.
Proof.
  cbn [json_dumps]. cbn [lit list_ascii_of_string app].
  rewrite <- !app_assoc. reflexivity.
Qed.

Lemma no_close_before_element (level : nat) (x : json) (xs : list json)
    (rest : str) :
  next_is "]" (join (comma_indent level) (map (json_dumps level) (x :: xs)) ++ rest)
  = None.
Proof.
  cbn [map].
  destruct (join_head (comma_indent level) (json_dumps level x)
              (map (json_dumps level) xs)) as [tail ->].
  destruct (json_dumps_head level x) as (c & r & -> & Hspace & Hclose & _).
  cbn [app]. rewrite next_is_head, Hclose by exact Hspace. reflexivity.
Qed.

Lemma no_close_before_member (level : nat) (m : str * json)
    (ms : list (str * json)) (rest : str) :
  next_is "}" (join (comma_indent level) (map (written_member level) (m :: ms)) ++ rest)
  = None.
Proof.
  cbn [map].
  destruct (join_head (comma_indent level) (written_member level m)
              (map (written_member level) ms)) as [tail ->].
  unfold written_member, encode_string. cbn [app].
  rewrite next_is_head by reflexivity. reflexivity.
Qed.

Lemma parse_value_written (v : json) : reads_back v.
Proof.
  induction v as [|s|items IH|members IH] using json_induction;
    intros level fuel rest Hfuel;
    (destruct fuel as [|fuel]; [simpl in Hfuel; lia|]).
  - reflexivity.
  - cbn [json_dumps]. unfold encode_string. cbn [app parse_value].
    rewrite skip_ws_head by reflexivity.
    change (Ascii.eqb dq dq) with true. cbv iota.
    rewrite <- app_assoc. cbn [app]. rewrite scanstring_encoded. reflexivity.
  - destruct items as [|x xs]; [reflexivity|].
    rewrite json_dumps_array. cbn [parse_value].
    rewrite skip_ws_head by reflexivity.
    change (Ascii.eqb "[" dq) with false.
    change (Ascii.eqb "[" "[") with true. cbv iota.
    rewrite next_is_indent, no_close_before_element.
    rewrite (parse_elements_written level (x :: xs) IH);
      [reflexivity|discriminate|simpl in Hfuel |- *; lia].
  - destruct members as [|m ms]; [reflexivity|].
    rewrite json_dumps_object. cbn [parse_value].
    rewrite skip_ws_head by reflexivity.
    change (Ascii.eqb "{" dq) with false.
    change (Ascii.eqb "{" "[") with false.
    change (Ascii.eqb "{" "{") with true. cbv iota.
    rewrite next_is_indent, no_close_before_member.
    rewrite (parse_members_written level (m :: ms) IH);
      [reflexivity|discriminate|simpl in Hfuel |- *; lia].
Qed.

Lemma join_bound {A : Type} (sep : str) (f : A -> str) (g : A -> nat)
    (xs : list A) :
  1 <= List.length sep ->
  Forall (fun x => g x <= List.length (f x)) xs ->
  list_sum (map (fun x => S (g x)) xs) <= S (List.length (join sep (map f xs))).
Proof.
  intros Hsep. induction 1 as [|x r Hx Hr IH]; [simpl; lia|].
  destruct r as [|y r].
  - simpl. lia.
  - cbn [map] in IH |- *. rewrite join_cons2, !length_app.
    unfold list_sum in IH |- *. cbn [fold_right] in IH |- *. lia.
Qed.

Lemma json_size_written (v : json) :
  forall level, json_size v <= List.length (json_dumps level v).
Proof.
  induction v as [|s|items IH|members IH] using json_induction; intros level.
  - simpl. lia.
  - simpl. lia.
  - destruct items as [|x xs]; [simpl; lia|].
    rewrite <- (app_nil_r (json_dumps level (JArray (x :: xs)))).
    rewrite json_dumps_array. cbn [json_size List.length].
    rewrite !length_app. cbn [List.length newline_indent].
    pose proof (join_bound (comma_indent (S level)) (json_dumps (S level))
                  json_size (x :: xs)) as Hb.
    cbn [List.length comma_indent] in Hb.
    assert (Hall : Forall (fun x => json_size x
                                    <= List.length (json_dumps (S level) x))
                     (x :: xs))
      by (eapply Forall_impl; [|exact IH]; intros a Ha; apply Ha).
    specialize (Hb ltac:(lia) Hall). lia.
  - destruct members as [|m ms]; [simpl; lia|].
    rewrite <- (app_nil_r (json_dumps level (JObject (m :: ms)))).
    rewrite json_dumps_object. cbn [json_size List.length].
    rewrite !length_app. cbn [List.length newline_indent].
    pose proof (join_bound (comma_indent (S level)) (written_member (S level))
                  (fun m => json_size (snd m)) (m :: ms)) as Hb.
    cbn [List.length comma_indent] in Hb.
    assert (Hall : Forall (fun m => json_size (snd m)
                                    <= List.length (written_member (S level) m))
                     (m :: ms)).
    { eapply Forall_impl; [|exact IH]. intros a Ha. cbv beta in Ha.
      unfold written_member. rewrite length_app. cbn [List.length].
      specialize (Ha (S level)). lia. }
    specialize (Hb ltac:(lia) Hall). lia.
Qed.

Lemma json_loads_dumps (v : json) : json_loads (json_dumps 0 v) = Some v.
Proof.
  unfold json_loads.
  rewrite <- (app_nil_r (json_dumps 0 v)) at 2.
  rewrite parse_value_written; [reflexivity|].
  pose proof (json_size_written v 0). lia.
Qed.

(** ** Saving *)

Lemma str_eqb_refl (a : str) : str_eqb a a = true.
Proof. unfold str_eqb. destruct (str_eq_dec a a); congruence. Qed.

Lemma dump_product_holds (p : Product) : holds_product (dump_product p) p.
Proof.
  destruct p as [n u l [s|]]; unfold holds_product, dump_product;
    cbn [name image_url link slug app]; eexists; (split; [reflexivity|]);
    repeat split; try discriminate; repeat constructor; discriminate.
Qed.

Lemma product_file_holds (p : Product) :
  file_holds_product (snd (product_file p)) p.
Proof.
  exists (dump_product p). split; [apply json_loads_dumps|apply dump_product_holds].
Qed.

Lemma collection_file_holds (ps : list Product) :
  file_holds_products (snd (collection_file ps)) ps.
Proof.
  exists (map dump_product ps). split; [apply json_loads_dumps|].
  induction ps; constructor; [apply dump_product_holds|assumption].
Qed.

Lemma Product_of_dict_name (watch : dict) (p : Product) :
  Product_of_dict watch = Ok p -> dict_get (lit "name") watch = Some (name p).
Proof.
  unfold Product_of_dict.
  destruct (dict_get (lit "name") watch); [|discriminate].
  destruct (dict_get (lit "image_url") watch); [|discriminate].
  destruct (dict_get (lit "link") watch); [|discriminate].
  intros H. inversion H. reflexivity.
Qed.

Lemma generate_safe_filename_cases (name category : str) (w : World) :
  match generate_safe_filename name category w with
  | (Ok path, w') =>
      path = safe_filename name category
      /\ files w' = files w /\ incl (io w') (io w)
  | (Raise e, w') =>
      files w' = files w /\ incl (io w') (io w)
      /\ exists n, In (Fails e n) (io w)
  end.
Proof.
  unfold generate_safe_filename, makedirs, next_outcome. cbv zeta.
  destruct w as [fs [|[|e n] rest]]; cbn [io files].
  - repeat split. apply incl_refl.
  - repeat split. apply incl_tl, incl_refl.
  - repeat split; [apply incl_tl, incl_refl|].
    exists n. left. reflexivity.
Qed.

Lemma save_data_cases (data : Model) (filename : str) (w : World) :
  match save_data data filename w with
  | (Ok _, w', log) =>
      files w' = (filename, json_dumps 0 (model_dump data)) :: files w
      /\ incl (io w') (io w)
      /\ log = [mkLog INFO (("Data saved to " : str) ++ filename)]
  | (Raise e, w', log) =>
      (exists partial, cut_short partial /\ files w' = partial ++ files w)
      /\ incl (io w') (io w)
      /\ (exists n, In (Fails e n) (io w))
      /\ log = [mkLog ERROR (("Error saving data to " : str) ++ filename
                             ++ (": " : str) ++ exc_str e)]
  end.
Proof.
  unfold save_data, write_text, next_outcome. cbv zeta.
  destruct w as [fs [|[|e [n|]] rest]]; cbn [io files].
  - repeat split. apply incl_refl.
  - repeat split. apply incl_tl, incl_refl.
  - split; [|split; [apply incl_tl, incl_refl|split; [|reflexivity]]].
    + eexists [(_, _)]. split; [right; eexists _, _, _; reflexivity|reflexivity].
    + eexists. left. reflexivity.
  - split; [|split; [apply incl_tl, incl_refl|split; [|reflexivity]]].
    + exists []. split; [left; reflexivity|reflexivity].
    + eexists. left. reflexivity.
Qed.

Lemma save_loop_run (watches : list dict) :
  forall ps saved w,
    Products_of_dicts watches = Ok ps ->
    match save_loop watches saved w with
    | (Ok filenames, w') =>
        filenames = saved ++ map (fun p => fst (product_file p)) ps
        /\ files w' = rev (map product_file ps) ++ files w
    | (Raise e, w') =>
        (exists k partial,
            cut_short partial
            /\ files w' = partial ++ rev (map product_file (firstn k ps)) ++ files w)
        /\ exists n, In (Fails e n) (io w)
    end.
Proof.
  induction watches as [|watch rest IH]; intros ps saved w H; simpl in H.
  - inversion H. simpl. rewrite app_nil_r. split; reflexivity.
  - destruct (Product_of_dict watch) as [p|e] eqn:Ep; [|discriminate].
    destruct (Products_of_dicts rest) as [ps'|e] eqn:Eps; [|discriminate].
    inversion H; subst ps. cbn [save_loop]. unfold dict_item.
    rewrite (Product_of_dict_name watch p Ep).
    pose proof (generate_safe_filename_cases (name p) "watch" w) as Hname.
    destruct (generate_safe_filename (name p) "watch" w) as [[path|e] w1].
    + destruct Hname as (-> & Hfiles1 & Hio1). rewrite Ep.
      pose proof (save_data_cases (AProduct p) (safe_filename (name p) "watch") w1)
        as Hsave.
      destruct (save_data (AProduct p) (safe_filename (name p) "watch") w1)
        as [[[u|e] w2] log].
      * destruct Hsave as (Hfiles2 & Hio2 & _).
        specialize (IH ps' (saved ++ [safe_filename (name p) "watch"]) w2 eq_refl).
        destruct (save_loop rest (saved ++ [safe_filename (name p) "watch"]) w2)
          as [[filenames|e] w3].
        -- destruct IH as (-> & Hfiles3). split.
           ++ rewrite <- app_assoc. reflexivity.
           ++ rewrite Hfiles3, Hfiles2, Hfiles1. cbn [map rev].
              rewrite <- app_assoc. reflexivity.
        -- destruct IH as ((k & partial & Hcut & Hfiles3) & n & Hin). split.
           ++ exists (S k), partial. split; [exact Hcut|].
              rewrite Hfiles3, Hfiles2, Hfiles1. cbn [firstn map rev].
              rewrite <- !app_assoc. reflexivity.
           ++ exists n. apply Hio1, Hio2, Hin.
      * destruct Hsave as ((partial & Hcut & Hfiles2) & _ & (n & Hin) & _). split.
        -- exists 0, partial. split; [exact Hcut|].
           rewrite Hfiles2, Hfiles1. reflexivity.
        -- exists n. apply Hio1, Hin.
    + destruct Hname as (Hfiles1 & _ & n & Hin). split.
      * exists 0, []. split; [left; reflexivity|exact Hfiles1].
      * exists n. exact Hin.
Qed.

Lemma Products_of_records (watches : list dict) :
  Forall (fun w => exists label url link_, w = watch_record label url link_)
    watches ->
  exists ps, Products_of_dicts watches = Ok ps.
Proof.
  induction 1 as [|w r (label & url & link_ & ->) Hr [ps IH]].
  - exists []. reflexivity.
  - eexists. cbn [Products_of_dicts].
    change (Product_of_dict (watch_record label url link_))
      with (Ok (mkProduct label url (strip isspace link_)
                  (Some (generate_slug label)))).
    rewrite IH. reflexivity.
Qed.

Lemma extract_watch_data_shape
    (BeautifulSoup : str -> result PageElement)
    (urljoin : str -> str -> result str) (html : str) (links : list str) :
  Forall (fun w => exists label url link_, w = watch_record label url link_)
    (fst (extract_watch_data BeautifulSoup urljoin html links)).
Proof.
  rewrite extract_watch_data_records. unfold expected_watches.
  destruct (BeautifulSoup html) as [soup|e]; [|constructor].
  destruct (find soup "div" _) as [container|]; [|constructor].
  cbv zeta.
  destruct (records urljoin not_http _) as [rs|e] eqn:Er; [|constructor].
  apply records_shape in Er. exact Er.
Qed.

(** C9: a file [save_data] has written for a product reads back, by
    [json.loads] and validation, as that product; its object has no null
    member, and no [slug] member when the slug is [None].  When the write
    raises, [save_data] logs the error and raises it again, leaving no
    file or one cut short.  Every file a [save_watch_collection] that
    returns has written is such a file: one per product, after the file
    of the collection, which reads back as the list of the products.  A
    [save_watch_collection] that stops does so on an exception of the
    environment, and the files it wrote in full before are of the same
    kind. *)
Theorem saved_files_read_back
    (BeautifulSoup : str -> result PageElement)
    (urljoin : str -> str -> result str) (w : World) :
  (forall p filename w0,
      match save_data (AProduct p) filename w0 with
      | (Ok _, w1, log) =>
          (exists text,
              read_file (files w1) filename = Some text
              /\ file_holds_product text p)
          /\ files w1 = (filename, snd (product_file p)) :: files w0
          /\ log = [mkLog INFO (("Data saved to " : str) ++ filename)]
      | (Raise e, w1, log) =>
          (exists partial, cut_short partial /\ files w1 = partial ++ files w0)
          /\ (exists n, In (Fails e n) (io w0))
          /\ log = [mkLog ERROR (("Error saving data to " : str) ++ filename
                                 ++ (": " : str) ++ exc_str e)]
      end)
  /\ match save_watch_collection BeautifulSoup urljoin w with
     | (Return _, w') =>
         exists ps,
           Products_of_dicts
             (fst (extract_watch_data BeautifulSoup urljoin html_content watch_links))
           = Ok ps
           /\ files w' = rev (map product_file ps) ++ collection_file ps :: files w
           /\ Forall (fun p => file_holds_product (snd (product_file p)) p) ps
           /\ file_holds_products (snd (collection_file ps)) ps
     | (HTTPException status_code _, w') => status_code = 500 /\ w' = w
     | (Unhandled e, w') =>
         (exists n, In (Fails e n) (io w))
         /\ exists ps k partial,
              Products_of_dicts
                (fst (extract_watch_data BeautifulSoup urljoin html_content watch_links))
              = Ok ps
              /\ cut_short partial
              /\ files w' = partial ++ complete_files ps k ++ files w
              /\ Forall (fun p => file_holds_product (snd (product_file p)) p) ps
              /\ file_holds_products (snd (collection_file ps)) ps
     end.
Proof.
  split.
  - intros p filename w0.
    pose proof (save_data_cases (AProduct p) filename w0) as Hsave.
    destruct (save_data (AProduct p) filename w0) as [[[u|e] w1] log].
    + destruct Hsave as (Hfiles & _ & Hlog). split; [|split; assumption].
      eexists. split; [|apply (product_file_holds p)].
      unfold read_file. rewrite Hfiles. cbn [dict_get].
      rewrite str_eqb_refl. reflexivity.
    + destruct Hsave as (Hpartial & _ & Hin & Hlog). repeat split; assumption.
  - unfold save_watch_collection. cbv zeta.
    pose proof (extract_watch_data_shape BeautifulSoup urljoin
                  html_content watch_links) as Hshape.
    destruct (fst (extract_watch_data BeautifulSoup urljoin
                     html_content watch_links)) as [|x xs] eqn:Ew;
      [split; reflexivity|].
    destruct (Products_of_records _ Hshape) as [ps Hps].
    assert (Hholds : Forall (fun p => file_holds_product (snd (product_file p)) p) ps)
      by (apply Forall_forall; intros p _; apply product_file_holds).
    pose proof (collection_file_holds ps) as Hcoll.
    pose proof (generate_safe_filename_cases "watch_collection" "watches" w)
      as Hname.
    destruct (generate_safe_filename "watch_collection" "watches" w)
      as [[path|e] w1].
    + destruct Hname as (-> & Hfiles1 & Hio1). rewrite Hps.
      pose proof (save_data_cases (AProductDetails (mkProductDetails ps))
                    (safe_filename "watch_collection" "watches") w1) as Hsave.
      destruct (save_data (AProductDetails (mkProductDetails ps))
                  (safe_filename "watch_collection" "watches") w1)
        as [[[u|e] w2] log].
      * destruct Hsave as (Hfiles2 & Hio2 & _).
        pose proof (save_loop_run (x :: xs) ps [] w2 Hps) as Hloop.
        destruct (save_loop (x :: xs) [] w2) as [[filenames|e] w3].
        -- destruct Hloop as (_ & Hfiles3). exists ps.
           split; [reflexivity|]. split; [|split; assumption].
           rewrite Hfiles3, Hfiles2, Hfiles1. reflexivity.
        -- destruct Hloop as ((k & partial & Hcut & Hfiles3) & n & Hin). split.
           ++ exists n. apply Hio1, Hio2, Hin.
           ++ exists ps, (Some k), partial. split; [reflexivity|].
              split; [exact Hcut|]. split; [|split; assumption].
              rewrite Hfiles3, Hfiles2, Hfiles1. cbn [complete_files].
              rewrite <- !app_assoc. reflexivity.
      * destruct Hsave as ((partial & Hcut & Hfiles2) & _ & (n & Hin) & _). split.
        -- exists n. apply Hio1, Hin.
        -- exists ps, None, partial. split; [reflexivity|].
           split; [exact Hcut|]. split; [|split; assumption].
           rewrite Hfiles2, Hfiles1. reflexivity.
    + destruct Hname as (Hfiles1 & _ & n & Hin). split.
      * exists n. exact Hin.
      * exists ps, None, []. split; [exact Hps|].
        split; [left; reflexivity|]. split; [exact Hfiles1|split; assumption].
Qed.

(** ** Finding a watch by its name *)

Lemma isspace_lower_char (c : ascii) : isspace (lower_char c) = isspace c.
Proof. destruct c as [[] [] [] [] [] [] [] []]; reflexivity. Qed.

Lemma lstrip_lower (s : str) :
  lstrip isspace (lower s) = lower (lstrip isspace s).
Proof.
  induction s as [|c r IH]; [reflexivity|].
  unfold lower in *. simpl. rewrite isspace_lower_char.
  destruct (isspace c); [exact IH|reflexivity].
Qed.

Lemma rstrip_lower (s : str) :
  rstrip isspace (lower s) = lower (rstrip isspace s).
Proof.
  induction s as [|c r IH]; [reflexivity|].
  unfold lower in *. cbn [map]. rewrite !rstrip_cons, IH, isspace_lower_char.
  destruct (rstrip isspace r); simpl; [destruct (isspace c)|]; reflexivity.
Qed.

Lemma strip_lower (s : str) :
  strip isspace (lower s) = lower (strip isspace s).
Proof. unfold strip. rewrite lstrip_lower, rstrip_lower. reflexivity. Qed.

Lemma by_name_loop_first (query_name : str) (before : list dict) :
  forall watch after label p,
    none_named query_name before ->
    Forall (fun w => exists n, dict_get (lit "name") w = Some n) before ->
    dict_get (lit "name") watch = Some label ->
    same_name label query_name = true ->
    Product_of_dict watch = Ok p ->
    by_name_loop query_name (lower (strip isspace query_name))
      (before ++ watch :: after)
    = Return p.
Proof.
  induction before as [|w r IH]; intros watch after label p Hnone Hnamed Hl Hs Hp.
  - cbn [app by_name_loop]. unfold dict_item. rewrite Hl, strip_lower.
    unfold same_name in Hs. rewrite Hs, Hp. reflexivity.
  - inversion Hnone as [|? ? Hw Hr]; subst.
    inversion Hnamed as [|? ? [n Hn] Hr']; subst.
    cbn [app by_name_loop]. unfold dict_item. rewrite Hn, strip_lower.
    specialize (Hw n Hn). unfold same_name in Hw. rewrite Hw.
    eapply IH; eassumption.
Qed.

Lemma by_name_loop_none (query_name : str) (watches : list dict) :
  none_named query_name watches ->
  Forall (fun w => exists n, dict_get (lit "name") w = Some n) watches ->
  by_name_loop query_name (lower (strip isspace query_name)) watches
  = HTTPException 404
      (("Watch '" : str) ++ query_name ++ ("' not found" : str)).
Proof.
  induction watches as [|w r IH]; intros Hnone Hnamed; [reflexivity|].
  inversion Hnone as [|? ? Hw Hr]; subst.
  inversion Hnamed as [|? ? [n Hn] Hr']; subst.
  cbn [by_name_loop]. unfold dict_item. rewrite Hn, strip_lower.
  specialize (Hw n Hn). unfold same_name in Hw. rewrite Hw.
  apply IH; assumption.
Qed.

Lemma records_named (watches : list dict) :
  Forall (fun w => exists label url link_, w = watch_record label url link_)
    watches ->
  Forall (fun w => exists n, dict_get (lit "name") w = Some n) watches.
Proof.
  intros H. eapply Forall_impl; [|exact H].
  intros w (label & url & link_ & ->). exists label. reflexivity.
Qed.

(** C6: the handler answers 500 when the extraction returns nothing; it
    returns the product of the first record, in the order of the
    extraction, whose name equals the name asked for once both are
    trimmed and put in lower case; and it answers 404, with the name asked
    for in the detail, when no record has that name. *)
Theorem get_watch_by_name_first_match
    (BeautifulSoup : str -> result PageElement)
    (urljoin : str -> str -> result str) (query_name : str) :
  let watches :=
    fst (extract_watch_data BeautifulSoup urljoin html_content watch_links) in
  let response := get_watch_by_name BeautifulSoup urljoin query_name in
  (watches = [] ->
   response = HTTPException 500 "Failed to process watch collection")
  /\ (forall before watch after label,
        watches = before ++ watch :: after ->
        none_named query_name before ->
        dict_get (lit "name") watch = Some label ->
        same_name label query_name = true ->
        exists p, Product_of_dict watch = Ok p /\ response = Return p)
  /\ (watches <> [] ->
      none_named query_name watches ->
      response = HTTPException 404
                   (("Watch '" : str) ++ query_name ++ ("' not found" : str))).
Proof.
  cbv zeta. unfold get_watch_by_name. cbv zeta.
  pose proof (extract_watch_data_shape BeautifulSoup urljoin
                html_content watch_links) as Hshape.
  destruct (fst (extract_watch_data BeautifulSoup urljoin
                   html_content watch_links)) as [|w ws] eqn:Ew.
  - split; [reflexivity|]. split.
    + intros [|? ?] ? ? ? H; discriminate.
    + intros H. congruence.
  - split; [discriminate|]. split.
    + intros before watch after label Heq Hnone Hl Hs.
      rewrite Heq in Hshape |- *.
      apply Forall_app in Hshape as [Hb Hw].
      inversion Hw as [|? ? (lbl & url & link_ & Hrec) _]; subst watch.
      eexists. split; [reflexivity|].
      eapply by_name_loop_first;
        [exact Hnone|apply records_named, Hb|exact Hl|exact Hs|reflexivity].
    + intros _ Hnone.
      apply by_name_loop_none; [exact Hnone|apply records_named, Hshape].
Qed.

(** The sample document: a name in any case and with spaces around it
    finds its watch, and a name that is not there is answered by 404. *)
Example get_watch_by_name_sample (urljoin : str -> str -> result str) :
  get_watch_by_name HtmlParser.html_parser urljoin "  swatch OBSIDIAN ink "
  = Return (mkProduct "Swatch Obsidian Ink"
              "https://dj5e08oeu5ym4.cloudfront.net/thumb/12df7df7-fecd-412e-bea5-02e92c312408.webp"
              "https://www.shopar.ai/collection/watches?product=66ba01a114de953c80003cfc&mode=3d"
              (Some (lit "swatch-obsidian-ink")))
  /\ get_watch_by_name HtmlParser.html_parser urljoin "Rolex"
     = HTTPException 404 "Watch 'Rolex' not found".
Proof. split; vm_compute; reflexivity. Qed.

(** ** The file name *)

(** C8, where the code departs from it: a tab in the name is white space
    that the substitution keeps and that [replace] does not turn into an
    underscore, so it stays in the file name, where the specification has
    an underscore.  Whenever [generate_safe_filename] returns it returns
    that path, and it does return when [os.makedirs] does not raise. *)
Theorem generate_safe_filename_keeps_tab :
  (forall w,
      match generate_safe_filename ["a"%char; tab; "b"%char] "watch" w with
      | (Ok path, _) =>
          path = ("data/a" : str) ++ [tab] ++ ("b_watch.json" : str)
          /\ path <> filename_as_specified ["a"%char; tab; "b"%char] "watch"
      | (Raise e, _) => exists n, In (Fails e n) (io w)
      end)
  /\ fst (generate_safe_filename ["a"%char; tab; "b"%char] "watch"
            (mkWorld [] []))
     = Ok (("data/a" : str) ++ [tab] ++ ("b_watch.json" : str))
  /\ filename_as_specified ["a"%char; tab; "b"%char] "watch"
     = lit "data/a_b_watch.json".
Proof.
  split; [|split; reflexivity].
  intros w.
  pose proof (generate_safe_filename_cases ["a"%char; tab; "b"%char] "watch" w)
    as H.
  destruct (generate_safe_filename ["a"%char; tab; "b"%char] "watch" w)
    as [[path|e] w'].
  - destruct H as (-> & _). split; [reflexivity|]. vm_compute. discriminate.
  - destruct H as (_ & _ & Hin). exact Hin.
Qed.

(** On a name whose only white space is the space character the file name
    is the one specified. *)
Lemma safe_filename_spaces (name category : str) :
  Forall (fun c => isspace c = true -> c = " "%char) name ->
  safe_filename name category = filename_as_specified name category.
Proof.
  intros H. unfold safe_filename, filename_as_specified. cbv zeta.
  do 2 f_equal. f_equal.
  assert (Hkept : Forall (fun c => isspace c = true -> c = " "%char)
                    (re_sub_class not_word_space_hyphen "" name)).
  { eapply Forall_impl; [|apply (re_sub_class_removes _ _ _ H)].
    intros c [Hc _]. exact Hc. }
  induction Hkept as [|c r Hc Hr IH]; [reflexivity|].
  unfold replace_char, re_sub_class in *. cbn [flat_map]. rewrite IH.
  f_equal. destruct (isspace c) eqn:E.
  - rewrite (Hc eq_refl). reflexivity.
  - destruct (Ascii.eqb_spec c " "); [subst c; discriminate|reflexivity].
Qed.

(** * Further properties *)

(** ** The shape of a slug *)

Lemma lstrip_head (p : ascii -> bool) (s : str) :
  match lstrip p s with c :: _ => p c = false | [] => True end.
Proof.
  induction s as [|c r IH]; [exact I|]. simpl.
  destruct (p c) eqn:E; [exact IH|exact E].
Qed.

Lemma rstrip_last (p : ascii -> bool) (s : str) :
  forall r c, rstrip p s = r ++ [c] -> p c = false.
Proof.
  induction s as [|a s' IH]; intros r c H.
  - destruct r; discriminate.
  - rewrite rstrip_cons in H.
    destruct (rstrip p s') as [|d t] eqn:E; cbn [is_empty andb] in H.
    + destruct (p a) eqn:Ea; [destruct r; discriminate|].
      destruct r as [|x r]; [inversion H; subst; exact Ea|].
      inversion H. destruct r; discriminate.
    + destruct r as [|x r]; [inversion H|].
      inversion H; subst. eapply IH. eassumption.
Qed.

Lemma strip_ends (p : ascii -> bool) (s : str) :
  match strip p s with c :: _ => p c = false | [] => True end
  /\ forall r c, strip p s = r ++ [c] -> p c = false.
Proof.
  split.
  - unfold strip. rewrite <- lstrip_rstrip_comm.
    rewrite <- (lstrip_lstrip_sub p p (fun c H => H)).
    rewrite lstrip_rstrip_comm. apply lstrip_head.
  - apply rstrip_last.
Qed.

Lemma run_out (P : ascii -> bool) (h : ascii) (b : bool) (s : str) :
  Forall (fun c => P c = false \/ c = h) (re_sub_run P [h] b s).
Proof.
  revert b. induction s as [|c r IH]; intros b; [constructor|].
  simpl. destruct (P c) eqn:E.
  - destruct b; cbn [app]; [apply IH|constructor; [right; reflexivity|apply IH]].
  - constructor; [left; exact E|apply IH].
Qed.

Lemma run_no_adjacent (P : ascii -> bool) (h : ascii) (b : bool) (s : str) :
  no_adjacent P (re_sub_run P [h] b s) = true.
Proof.
  revert b. induction s as [|c r IH]; intros b; [reflexivity|].
  rewrite run_cons. destruct (P c) eqn:E.
  - destruct b; [apply IH|].
    pose proof (lstrip_head P (re_sub_run P [h] true r)) as Hh.
    rewrite lstrip_P_run_true in Hh. specialize (IH true).
    destruct (re_sub_run P [h] true r) as [|d t]; [reflexivity|].
    change (no_adjacent P (h :: d :: t))
      with (negb (P h && P d) && no_adjacent P (d :: t)).
    rewrite Hh, andb_false_r. exact IH.
  - specialize (IH false).
    destruct (re_sub_run P [h] false r) as [|d t]; [reflexivity|].
    change (no_adjacent P (c :: d :: t))
      with (negb (P c && P d) && no_adjacent P (d :: t)).
    rewrite E. exact IH.
Qed.

Lemma no_adjacent_hyphen (s : str) :
  no_adjacent space_or_hyphen s = true -> no_double_hyphen s = true.
Proof.
  induction s as [|a s' IH]; [reflexivity|].
  destruct s' as [|b t]; [reflexivity|].
  change (no_adjacent space_or_hyphen (a :: b :: t))
    with (negb (space_or_hyphen a && space_or_hyphen b)
          && no_adjacent space_or_hyphen (b :: t)).
  change (no_double_hyphen (a :: b :: t))
    with (negb (ishyphen a && ishyphen b) && no_double_hyphen (b :: t)).
  intros H.
  apply andb_true_iff in H as [Hab Ht]. rewrite (IH Ht), andb_true_r.
  unfold space_or_hyphen in Hab.
  destruct (ishyphen a), (ishyphen b); try reflexivity.
  rewrite !orb_true_r in Hab. discriminate.
Qed.

Lemma startswith_hyphen (c : ascii) (r : str) :
  space_or_hyphen c = false -> startswith "-" (c :: r) = false.
Proof.
  intros H. apply orb_false_iff in H as [_ H]. unfold ishyphen in H.
  change (startswith "-" (c :: r)) with (Ascii.eqb "-" c && true).
  rewrite Ascii.eqb_sym, H. reflexivity.
Qed.

(** X1: a slug is made of hyphens and of word characters that [lower]
    leaves as they are; it neither begins nor ends with a hyphen, and no
    hyphen follows a hyphen. *)
Theorem generate_slug_shape (name : str) :
  let s := generate_slug name in
  Forall (fun c => c = "-"%char \/ (isword c = true /\ lower_char c = c)) s
  /\ startswith "-" s = false
  /\ startswith "-" (rev s) = false
  /\ no_double_hyphen s = true.
Proof.
  cbv zeta. rewrite generate_slug_normal.
  pose proof (slug_chars name) as Hchars.
  split; [|split; [|split]].
  - unfold slug_normal_form, re_sub_plus in *. rewrite lit_hyphen in *.
    pose proof (run_out space_or_hyphen "-" false
                  (strip space_or_hyphen
                     (re_sub_class not_word_space_hyphen "" (lower name)))) as Hout.
    revert Hchars Hout.
    generalize (re_sub_run space_or_hyphen ["-"%char] false
                  (strip space_or_hyphen
                     (re_sub_class not_word_space_hyphen "" (lower name)))).
    intros t Hc Ho. induction Hc as [|c r [Hl Hk] Hr IH]; [constructor|].
    inversion Ho as [|? ? Hc Ho']; subst. constructor; [|apply IH, Ho'].
    destruct Hc as [Hc|Hc]; [right|left; exact Hc]. split; [|exact Hl].
    unfold not_word_space_hyphen in Hk. apply negb_false_iff in Hk.
    unfold space_or_hyphen in Hc. apply orb_false_iff in Hc as [Hs Hh].
    rewrite Hs, Hh, !orb_false_r in Hk. exact Hk.
  - unfold slug_normal_form. rewrite lit_hyphen, <- strip_sep_collapse.
    destruct (strip_ends space_or_hyphen
                (re_sub_plus space_or_hyphen ["-"%char]
                   (re_sub_class not_word_space_hyphen "" (lower name))))
      as [Hhead _].
    destruct (strip space_or_hyphen _) as [|c r]; [reflexivity|].
    apply startswith_hyphen, Hhead.
  - unfold slug_normal_form. rewrite lit_hyphen, <- strip_sep_collapse.
    destruct (strip_ends space_or_hyphen
                (re_sub_plus space_or_hyphen ["-"%char]
                   (re_sub_class not_word_space_hyphen "" (lower name))))
      as [_ Hlast].
    destruct (rev (strip space_or_hyphen _)) as [|c r] eqn:E; [reflexivity|].
    apply (f_equal (@rev ascii)) in E. rewrite rev_involutive in E.
    cbn [rev] in E. specialize (Hlast _ _ E).
    apply startswith_hyphen, Hlast.
  - apply no_adjacent_hyphen. unfold slug_normal_form, re_sub_plus.
    rewrite lit_hyphen. apply run_no_adjacent.
Qed.

Lemma lstrip_all (p : ascii -> bool) (s : str) :
  Forall (fun c => p c = true) s -> lstrip p s = [].
Proof.
  induction 1 as [|c r Hc Hr IH]; [reflexivity|]. simpl. rewrite Hc. exact IH.
Qed.

(** X2: a name without a word character, however long, has the empty
    slug. *)
Theorem generate_slug_no_word (name : str) :
  Forall (fun c => isword (lower_char c) = false) name ->
  generate_slug name = "".
Proof.
  intros H. rewrite generate_slug_normal. unfold slug_normal_form, strip.
  rewrite lstrip_all; [reflexivity|].
  induction H as [|c r Hc Hr IH]; [constructor|].
  unfold lower, re_sub_class in *. cbn [map flat_map].
  unfold not_word_space_hyphen at 1. rewrite Hc. cbn [orb].
  destruct (isspace (lower_char c) || ishyphen (lower_char c)) eqn:E;
    cbn [negb app]; [|exact IH].
  constructor; [exact E|exact IH].
Qed.

Lemma generate_slug_no_word_witness : generate_slug " -- !?! -- " = "".
Proof.
  apply (generate_slug_no_word " -- !?! -- ").
  repeat constructor.
Defined.

(** X3: names that differ by the case of their letters only have the same
    slug. *)
Theorem generate_slug_case (name other : str) :
  lower name = lower other -> generate_slug name = generate_slug other.
Proof.
  intros H. rewrite !generate_slug_normal. unfold slug_normal_form.
  rewrite H. reflexivity.
Qed.

Lemma generate_slug_case_witness :
  generate_slug "HUBLOT Big Bang" = generate_slug "Hublot BIG bang".
Proof.
  apply (generate_slug_case "HUBLOT Big Bang" "Hublot BIG bang").
  reflexivity.
Defined.

(** ** The shape of a file name *)

Lemma kept_not_path_char (c : ascii) :
  not_word_space_hyphen c = false -> Ascii.eqb c " " = false ->
  path_char (lower_char c) = false.
Proof. destruct c as [[] [] [] [] [] [] [] []]; intros H1 H2; solve [reflexivity | discriminate]. Qed.

(** X4: when [generate_safe_filename] returns, the path is [data/], a name
    part, an underscore, the category as given and [.json], and the name
    part has no slash, backslash, dot or space in it.  The function writes
    no file, and the only exception it raises is that of [os.makedirs]. *)
Theorem generate_safe_filename_shape (name category : str) (w : World) :
  match generate_safe_filename name category w with
  | (Ok path, w') =>
      (exists safe_name,
          path = ("data/" : str) ++ safe_name ++ ("_" : str) ++ category
                 ++ (".json" : str)
          /\ Forall (fun c => path_char c = false) safe_name)
      /\ files w' = files w
  | (Raise e, w') => files w' = files w /\ exists n, In (Fails e n) (io w)
  end.
Proof.
  pose proof (generate_safe_filename_cases name category w) as H.
  destruct (generate_safe_filename name category w) as [[path|e] w'].
  - destruct H as (-> & Hfiles & _). split; [|exact Hfiles].
    eexists. split; [reflexivity|].
    assert (Hkept : Forall (fun c => True /\ not_word_space_hyphen c = false)
                      (re_sub_class not_word_space_hyphen "" name)).
    { apply re_sub_class_removes. apply Forall_forall. intros; exact I. }
    induction Hkept as [|c r [_ Hc] Hr IH]; [constructor|].
    unfold replace_char, lower in *. cbn [flat_map].
    destruct (Ascii.eqb c " ") eqn:E; cbn [lit list_ascii_of_string app map].
    + constructor; [reflexivity|exact IH].
    + constructor; [apply kept_not_path_char; assumption|exact IH].
  - destruct H as (Hfiles & _ & Hin). split; assumption.
Qed.


(** ** More on the extraction *)

Section MoreExtraction.

Variable BeautifulSoup : str -> result PageElement.
Variable urljoin : str -> str -> result str.

(** X6: the extraction never returns more records than there are links,
    nor more than there are items in the container. *)
Theorem extract_watch_data_count (html : str) (links : list str) :
  let watches := fst (extract_watch_data BeautifulSoup urljoin html links) in
  List.length watches <= List.length links
  /\ match BeautifulSoup html with
     | Ok soup =>
         match find soup "div" (Some (lit "flex space-x-4 min-h-[60px]")) with
         | Some watch_container =>
             List.length watches
             <= List.length (find_all watch_container "div"
                               (Some (lit "inline-block")))
         | None => watches = []
         end
     | Raise _ => watches = []
     end.
Proof.
  cbv zeta. rewrite extract_watch_data_records. unfold expected_watches.
  destruct (BeautifulSoup html) as [soup|e]; [|split; [simpl; lia|reflexivity]].
  destruct (find soup "div" _) as [container|];
    [|split; [simpl; lia|reflexivity]].
  cbv zeta.
  destruct (records urljoin not_http _) as [rs|e] eqn:Er; [|simpl; lia].
  apply records_length in Er. rewrite length_combine in Er. lia.
Qed.

Lemma combine_app_r {A B : Type} (xs : list A) (ys extra : list B) :
  List.length xs <= List.length ys ->
  combine xs (ys ++ extra) = combine xs ys.
Proof.
  revert ys. induction xs as [|x xs IH]; intros ys H; [reflexivity|].
  destruct ys as [|y ys]; [simpl in H; lia|].
  simpl. rewrite IH by (simpl in H; lia). reflexivity.
Qed.

(** X7: links beyond the number of items are not used: with at least as
    many links as items, more links at the end change nothing in the
    result. *)
Theorem extract_watch_data_more_links (html : str) (links extra : list str)
    (soup watch_container : PageElement) :
  BeautifulSoup html = Ok soup ->
  find soup "div" (Some (lit "flex space-x-4 min-h-[60px]")) = Some watch_container ->
  List.length (find_all watch_container "div" (Some (lit "inline-block")))
  <= List.length links ->
  fst (extract_watch_data BeautifulSoup urljoin html (links ++ extra))
  = fst (extract_watch_data BeautifulSoup urljoin html links).
Proof.
  intros Hsoup Hfind Hlen. rewrite !extract_watch_data_records.
  unfold expected_watches. rewrite Hsoup, Hfind. cbv zeta.
  rewrite combine_app_r by exact Hlen. reflexivity.
Qed.

Lemma records_raise (relative : str -> bool)
    (pairs : list (PageElement * str)) :
  forall item link_ e,
    In (item, link_) pairs ->
    item_record urljoin relative item link_ = Raise e ->
    exists e', records urljoin relative pairs = Raise e'.
Proof.
  induction pairs as [|[item0 link0] rest IH]; intros item link_ e Hin He;
    [destruct Hin|].
  cbn [records]. destruct Hin as [Heq|Hin].
  - inversion Heq; subst. rewrite He. eexists. reflexivity.
  - destruct (item_record urljoin relative item0 link0);
      [|eexists; reflexivity].
    destruct (IH item link_ e Hin He) as [e' ->]. eexists. reflexivity.
Qed.

(** X8: when [urljoin] raises for one item that has a link, nothing is
    returned, whatever the items before it gave, and the log ends with an
    error record. *)
Theorem extract_watch_data_urljoin_raises (html : str) (links : list str)
    (soup watch_container item : PageElement) (link_ : str) (e : Exception) :
  BeautifulSoup html = Ok soup ->
  find soup "div" (Some (lit "flex space-x-4 min-h-[60px]")) = Some watch_container ->
  In (item, link_)
     (combine (find_all watch_container "div" (Some (lit "inline-block"))) links) ->
  item_record urljoin not_http item link_ = Raise e ->
  fst (extract_watch_data BeautifulSoup urljoin html links) = []
  /\ exists e' log,
       snd (extract_watch_data BeautifulSoup urljoin html links)
       = log ++ [mkLog ERROR
                   (("Error extracting watch data: " : str) ++ exc_str e')].
Proof.
  intros Hsoup Hfind Hin He.
  destruct (records_raise not_http _ item link_ e Hin He) as [e' Hr].
  unfold extract_watch_data, extract_body. rewrite Hsoup, Hfind. cbv zeta.
  match goal with
  | |- context [extract_loop urljoin links 0 ?items [] ?log] =>
      pose proof (extract_loop_records urljoin links items 0 [] log) as H;
      destruct (extract_loop urljoin links 0 items [] log) as [[ws|e0] log']
  end; cbn [fst skipn] in H; rewrite Hr in H; [discriminate|].
  split; [reflexivity|]. eexists. eexists. reflexivity.
Qed.

Lemma extract_loop_account (links : list str) (items : list PageElement) :
  forall i watches log ws' log',
    extract_loop urljoin links i items watches log = (Ok ws', log') ->
    exists rs more,
      ws' = watches ++ rs /\ log' = log ++ more
      /\ List.length rs + List.length more = List.length items
      /\ Forall (fun r => levelname r = WARNING) more.
Proof.
  induction items as [|item rest IH]; intros i watches log ws' log' H.
  - inversion H. exists [], []. rewrite !app_nil_r. repeat split. constructor.
  - cbn [extract_loop] in H. cbv zeta in H.
    assert (Hskip : forall entry,
               levelname entry = WARNING ->
               extract_loop urljoin links (S i) rest watches (log ++ [entry])
               = (Ok ws', log') ->
               exists rs more,
                 ws' = watches ++ rs /\ log' = log ++ more
                 /\ List.length rs + List.length more = List.length (item :: rest)
                 /\ Forall (fun r => levelname r = WARNING) more).
    { intros entry Hlevel Hrun.
      destruct (IH _ _ _ _ _ Hrun) as (rs & more & -> & -> & Hlen & Hall).
      exists rs, (entry :: more). rewrite <- app_assoc.
      repeat split; [simpl; lia|constructor; assumption]. }
    destruct (find item "img" None) as [img|]; [|(refine (Hskip _ _ H); reflexivity)].
    destruct (i <? List.length links)%nat; [|(refine (Hskip _ _ H); reflexivity)].
    match type of H with
    | context [match ?r with Ok _ => _ | Raise _ => _ end] =>
        destruct r as [url|e]
    end; [|discriminate].
    destruct (is_empty url); [(refine (Hskip _ _ H); reflexivity)|].
    destruct (IH _ _ _ _ _ H) as (rs & more & -> & -> & Hlen & Hall).
    eexists (_ :: rs), more. rewrite <- app_assoc.
    repeat split; [simpl; lia|exact Hall].
Qed.

(** X9: when nothing raises, every item of the container is accounted
    for: the log is the count of the items found, the mismatch warning
    when the counts differ, one warning for each item that gave no record,
    and the count of the records returned. *)
Theorem extract_watch_data_accounts (html : str) (links : list str)
    (soup watch_container : PageElement) (rs : list dict) :
  BeautifulSoup html = Ok soup ->
  find soup "div" (Some (lit "flex space-x-4 min-h-[60px]")) = Some watch_container ->
  records urljoin not_http
    (combine (find_all watch_container "div" (Some (lit "inline-block"))) links)
  = Ok rs ->
  let n := List.length (find_all watch_container "div" (Some (lit "inline-block"))) in
  exists warnings,
    extract_watch_data BeautifulSoup urljoin html links
    = (rs,
       [found_record n]
       ++ (if (n =? List.length links)%nat then []
           else [mismatch_record n (List.length links)])
       ++ warnings ++ [extracted_record (List.length rs)])
    /\ Forall (fun r => levelname r = WARNING) warnings
    /\ List.length rs + List.length warnings = n.
Proof.
  intros Hsoup Hfind Hr. cbv zeta.
  unfold extract_watch_data, extract_body. rewrite Hsoup, Hfind. cbv zeta.
  match goal with
  | |- context [extract_loop urljoin links 0 ?items [] ?log] =>
      pose proof (extract_loop_records urljoin links items 0 [] log) as H;
      pose proof (extract_loop_account links items 0 [] log) as Ha;
      destruct (extract_loop urljoin links 0 items [] log) as [[ws|e0] log']
  end; cbn [fst skipn] in H; rewrite Hr in H; [|discriminate].
  inversion H; subst ws. cbn [app] in *.
  destruct (Ha _ _ eq_refl) as (rs' & more & Hrs & -> & Hlen & Hall).
  cbn [app] in Hrs. subst rs'.
  exists more. split; [|split; assumption].
  unfold found_record, mismatch_record, extracted_record.
  destruct (_ =? _)%nat; cbn [app]; rewrite <- ?app_assoc; reflexivity.
Qed.

Lemma records_fields (pairs : list (PageElement * str)) :
  forall rs, records urljoin not_http pairs = Ok rs ->
    Forall (fun w => exists label url link_,
              w = watch_record label url link_
              /\ url <> [] /\ strip isspace label = label) rs.
Proof.
  induction pairs as [|[item link_] rest IH]; intros rs H; simpl in H.
  - inversion H. constructor.
  - destruct (item_record urljoin not_http item link_) as [o|e] eqn:Ei;
      [|discriminate].
    destruct (records urljoin not_http rest) as [rs'|e]; [|discriminate].
    inversion H; subst. specialize (IH rs' eq_refl).
    destruct o as [d|]; [|exact IH].
    constructor; [|exact IH].
    unfold item_record in Ei.
    destruct (find item "img" None) as [img|]; [|discriminate].
    cbv zeta in Ei.
    destruct (if not_http _ then _ else _) as [url|e]; [|discriminate].
    destruct url as [|c url]; inversion Ei.
    eexists _, _, _. split; [reflexivity|]. split; [discriminate|].
    apply (strip_strip_sub isspace isspace (fun c H => H)).
Qed.

(** X10: in every record returned the image URL is not empty, and the
    name and the link have no white space at either end. *)
Theorem extracted_records_trimmed (html : str) (links : list str) :
  Forall (fun watch =>
            exists label url link_,
              dict_get (lit "name") watch = Some label
              /\ dict_get (lit "image_url") watch = Some url
              /\ dict_get (lit "link") watch = Some link_
              /\ url <> []
              /\ strip isspace label = label
              /\ strip isspace link_ = link_)
         (fst (extract_watch_data BeautifulSoup urljoin html links)).
Proof.
  rewrite extract_watch_data_records. unfold expected_watches.
  destruct (BeautifulSoup html) as [soup|e]; [|constructor].
  destruct (find soup "div" _) as [container|]; [|constructor].
  cbv zeta.
  destruct (records urljoin not_http _) as [rs|e] eqn:Er; [|constructor].
  apply records_fields in Er.
  eapply Forall_impl; [|exact Er].
  intros w (label & url & link_ & -> & Hurl & Hlabel).
  exists label, url, (strip isspace link_).
  repeat split; try assumption.
  apply (strip_strip_sub isspace isspace (fun c H => H)).
Qed.

End MoreExtraction.

Lemma extract_watch_data_more_links_witness :
  fst (extract_watch_data HtmlParser.html_parser urljoin_segment html_two_items
         ([lit "https://www.shopar.ai/a"; lit "https://www.shopar.ai/b"]
          ++ [lit "https://www.shopar.ai/c"]))
  = fst (extract_watch_data HtmlParser.html_parser urljoin_segment html_two_items
           [lit "https://www.shopar.ai/a"; lit "https://www.shopar.ai/b"]).
Proof.
  eapply (extract_watch_data_more_links HtmlParser.html_parser urljoin_segment
            html_two_items).
  - vm_compute. reflexivity.
  - vm_compute. reflexivity.
  - vm_compute. lia.
Defined.

Lemma extract_watch_data_urljoin_raises_witness :
  fst (extract_watch_data HtmlParser.html_parser urljoin_bracket
         html_bracket_source
         [lit "https://www.shopar.ai/a"; lit "https://www.shopar.ai/b"])
  = [].
Proof.
  eapply proj1.
  eapply (extract_watch_data_urljoin_raises HtmlParser.html_parser
            urljoin_bracket html_bracket_source
            [lit "https://www.shopar.ai/a"; lit "https://www.shopar.ai/b"]).
  - vm_compute. reflexivity.
  - vm_compute. reflexivity.
  - right. left. reflexivity.
  - vm_compute. reflexivity.
Defined.

Lemma extract_watch_data_accounts_witness :
  exists warnings,
    extract_watch_data HtmlParser.html_parser urljoin_segment html_two_items
      [lit "https://www.shopar.ai/a"]
    = ([watch_record "Watch A" "https://www.shopar.ai/a.png"
          "https://www.shopar.ai/a"],
       [found_record 2] ++ [mismatch_record 2 1] ++ warnings
       ++ [extracted_record 1])
    /\ Forall (fun r => levelname r = WARNING) warnings
    /\ 1 + List.length warnings = 2.
Proof.
  edestruct (extract_watch_data_accounts HtmlParser.html_parser urljoin_segment
               html_two_items [lit "https://www.shopar.ai/a"])
    as (warnings & Hrun & Hall & Hlen).
  - vm_compute. reflexivity.
  - vm_compute. reflexivity.
  - vm_compute. reflexivity.
  - exists warnings. split; [exact Hrun|]. split; [exact Hall|exact Hlen].
Defined.

(** ** More on the handlers *)

Lemma Products_of_records_fields (watches : list dict) :
  Forall (fun w => exists label url link_, w = watch_record label url link_)
    watches ->
  exists ps,
    Products_of_dicts watches = Ok ps
    /\ Forall2 (fun w p =>
                  dict_get (lit "name") w = Some (name p)
                  /\ dict_get (lit "image_url") w = Some (image_url p)
                  /\ dict_get (lit "link") w = Some (link p)
                  /\ slug p = Some (generate_slug (name p)))
         watches ps.
Proof.
  induction 1 as [|w r (label & url & link_ & ->) Hr (ps & IH & Hall)].
  - exists []. split; [reflexivity|constructor].
  - eexists. cbn [Products_of_dicts].
    change (Product_of_dict (watch_record label url link_))
      with (Ok (mkProduct label url (strip isspace link_)
                  (Some (generate_slug label)))).
    rewrite IH. split; [reflexivity|].
    constructor; [repeat split|exact Hall].
Qed.

Section MoreHandlers.

Variable BeautifulSoup : str -> result PageElement.
Variable urljoin : str -> str -> result str.

(** X11: the List handler answers 500 exactly when the extraction returns
    nothing; otherwise it returns one product for each record, in the
    order of the extraction, with the fields of the record and a slug that
    is the slug of the name.  Validation never fails on an extracted
    record. *)
Theorem get_watch_collection_products :
  let watches :=
    fst (extract_watch_data BeautifulSoup urljoin html_content watch_links) in
  match get_watch_collection BeautifulSoup urljoin with
  | Return details =>
      watches <> []
      /\ Forall2 (fun w p =>
                    dict_get (lit "name") w = Some (name p)
                    /\ dict_get (lit "image_url") w = Some (image_url p)
                    /\ dict_get (lit "link") w = Some (link p)
                    /\ slug p = Some (generate_slug (name p)))
           watches (products details)
  | HTTPException status_code detail =>
      status_code = 500
      /\ detail = lit "Failed to process watch collection"
      /\ watches = []
  | Unhandled _ => False
  end.
Proof.
  cbv zeta. unfold get_watch_collection. cbv zeta.
  pose proof (extract_watch_data_shape BeautifulSoup urljoin
                html_content watch_links) as Hshape.
  destruct (fst (extract_watch_data BeautifulSoup urljoin
                   html_content watch_links)) as [|w ws];
    [repeat split|].
  destruct (Products_of_records_fields _ Hshape) as (ps & -> & Hall).
  split; [discriminate|exact Hall].
Qed.

Lemma by_name_loop_query (query_name other watch_name : str)
    (watches : list dict) (p : Product) :
  by_name_loop query_name watch_name watches = Return p ->
  by_name_loop other watch_name watches = Return p.
Proof.
  induction watches as [|w r IH]; [discriminate|].
  cbn [by_name_loop]. destruct (dict_item w "name") as [n|e]; [|discriminate].
  destruct (str_eqb (strip isspace (lower n)) watch_name); [|exact IH].
  destruct (Product_of_dict w); [|discriminate]. intros H. exact H.
Qed.

(** X12: two names that are equal once trimmed and put in lower case find
    the same product. *)
Theorem get_watch_by_name_same_query (query_name other : str) (p : Product) :
  lower (strip isspace query_name) = lower (strip isspace other) ->
  get_watch_by_name BeautifulSoup urljoin query_name = Return p ->
  get_watch_by_name BeautifulSoup urljoin other = Return p.
Proof.
  intros Hsame. unfold get_watch_by_name. cbv zeta.
  destruct (fst (extract_watch_data BeautifulSoup urljoin
                   html_content watch_links)) as [|w ws]; [discriminate|].
  rewrite <- Hsame. apply by_name_loop_query.
Qed.

(** What a run of [save_watch_collection] returns and leaves, after the
    test for an empty extraction. *)
Lemma saved_files_run (w : World) :
  let watches :=
    fst (extract_watch_data BeautifulSoup urljoin html_content watch_links) in
  match watches with
  | [] => True
  | _ =>
      match generate_safe_filename "watch_collection" "watches" w with
      | (Raise e, w1) => exists n, In (Fails e n) (io w)
      | (Ok path, w1) =>
          match Products_of_dicts watches with
          | Raise e => True
          | Ok ps =>
              match save_data (AProductDetails (mkProductDetails ps)) path w1 with
              | (Raise e, w2, _) => exists n, In (Fails e n) (io w)
              | (Ok _, w2, _) =>
                  match save_loop watches [] w2 with
                  | (Raise e, w3) => exists n, In (Fails e n) (io w)
                  | (Ok filenames, w3) =>
                      path = lit "data/watch_collection_watches.json"
                      /\ filenames = map (fun p => fst (product_file p)) ps
                      /\ files w3 = rev (map product_file ps)
                                    ++ collection_file ps :: files w
                  end
              end
          end
      end
  end.
Proof.
  cbv zeta.
  destruct (fst (extract_watch_data BeautifulSoup urljoin
                   html_content watch_links)) as [|x xs]; [exact I|].
  pose proof (generate_safe_filename_cases "watch_collection" "watches" w)
    as Hname.
  destruct (generate_safe_filename "watch_collection" "watches" w)
    as [[path|e] w1]; [|apply Hname].
  destruct Hname as (-> & Hfiles1 & Hio1).
  destruct (Products_of_dicts (x :: xs)) as [ps|e] eqn:Hps; [|exact I].
  pose proof (save_data_cases (AProductDetails (mkProductDetails ps))
                (safe_filename "watch_collection" "watches") w1) as Hsave.
  destruct (save_data (AProductDetails (mkProductDetails ps))
              (safe_filename "watch_collection" "watches") w1)
    as [[[u|e] w2] log].
  - destruct Hsave as (Hfiles2 & Hio2 & _).
    pose proof (save_loop_run (x :: xs) ps [] w2 Hps) as Hloop.
    destruct (save_loop (x :: xs) [] w2) as [[filenames|e] w3].
    + destruct Hloop as (-> & Hfiles3). split; [reflexivity|].
      split; [reflexivity|]. rewrite Hfiles3, Hfiles2, Hfiles1. reflexivity.
    + destruct Hloop as (_ & n & Hin). exists n. apply Hio1, Hio2, Hin.
  - destruct Hsave as (_ & _ & (n & Hin) & _). exists n. apply Hio1, Hin.
Qed.

Lemma path_tail_differs (a b : str) :
  a ++ lit "h.json" <> b ++ lit "s.json".
Proof.
  intros H. apply (f_equal (@rev ascii)) in H.
  rewrite !rev_app_distr in H. cbn in H. discriminate.
Qed.

Lemma product_path_not_collection (p : Product) (ps : list Product) :
  fst (product_file p) <> fst (collection_file ps).
Proof.
  unfold product_file, collection_file, safe_filename. cbn [fst].
  cbv zeta. intros H.
  apply (path_tail_differs
           (("data/" : str)
            ++ lower (replace_char " " "_"
                        (re_sub_class not_word_space_hyphen "" (name p)))
            ++ lit "_watc")
           (lit "data/watch_collection_watche")).
  rewrite <- !app_assoc. exact H.
Qed.

Lemma str_eqb_neq (a b : str) : a <> b -> str_eqb a b = false.
Proof. intros H. unfold str_eqb. destruct (str_eq_dec a b); congruence. Qed.

Lemma dict_get_app_skip {V : Type} (k : str) (l1 l2 : list (str * V)) :
  Forall (fun kv => fst kv <> k) l1 ->
  dict_get k (l1 ++ l2) = dict_get k l2.
Proof.
  induction 1 as [|[k' v] r Hk Hr IH]; [reflexivity|].
  cbn [app dict_get]. rewrite str_eqb_neq by (intros E; apply Hk; auto).
  exact IH.
Qed.

Lemma dict_get_app_found {V : Type} (k : str) (v : V) (l1 l2 : list (str * V)) :
  In (k, v) l1 ->
  exists v', In (k, v') l1 /\ dict_get k (l1 ++ l2) = Some v'.
Proof.
  induction l1 as [|[k' w] r IH]; intros Hin; [destruct Hin|].
  cbn [app dict_get]. unfold str_eqb. destruct (str_eq_dec k k') as [<-|Hne].
  - exists w. split; [left; reflexivity|reflexivity].
  - destruct Hin as [Heq|Hin]; [inversion Heq; congruence|].
    destruct (IH Hin) as (v' & Hin' & Hget).
    exists v'. split; [right; exact Hin'|exact Hget].
Qed.


(** X14: after a Save that returned, the path of the collection holds the
    file of the collection, since no product has that path; and the path
    of each product holds the file of a product with that path. *)
Theorem save_watch_collection_files (w : World) :
  match save_watch_collection BeautifulSoup urljoin w with
  | (Return _, w') =>
      exists ps,
        Products_of_dicts
          (fst (extract_watch_data BeautifulSoup urljoin html_content watch_links))
        = Ok ps
        /\ read_file (files w') (fst (collection_file ps))
           = Some (snd (collection_file ps))
        /\ Forall (fun p =>
                     exists q,
                       In q ps
                       /\ fst (product_file q) = fst (product_file p)
                       /\ read_file (files w') (fst (product_file p))
                          = Some (snd (product_file q))
                       /\ file_holds_product (snd (product_file q)) q)
             ps
  | _ => True
  end.
Proof.
  pose proof (saved_files_run w) as Hrun. cbv zeta in Hrun.
  unfold save_watch_collection in *. cbv zeta in *.
  pose proof (extract_watch_data_shape BeautifulSoup urljoin
                html_content watch_links) as Hshape.
  destruct (fst (extract_watch_data BeautifulSoup urljoin
                   html_content watch_links)) as [|x xs] eqn:Ew; [exact I|].
  destruct (Products_of_records _ Hshape) as [ps Hps].
  destruct (generate_safe_filename "watch_collection" "watches" w)
    as [[path|e] w1]; [|exact I].
  rewrite Hps in *.
  destruct (save_data (AProductDetails (mkProductDetails ps)) path w1)
    as [[[u|e] w2] log]; [|exact I].
  destruct (save_loop (x :: xs) [] w2) as [[filenames|e] w3]; [|exact I].
  destruct Hrun as (_ & _ & Hfiles).
  exists ps. split; [reflexivity|]. rewrite Hfiles. unfold read_file. split.
  - rewrite dict_get_app_skip.
    + destruct (collection_file ps) as [k v]. cbn [dict_get fst snd].
      rewrite str_eqb_refl. reflexivity.
    + apply Forall_forall. intros [k v] Hin.
      apply in_rev, in_map_iff in Hin as (q & Hq & _).
      cbn [fst]. replace k with (fst (product_file q)) by (rewrite Hq; reflexivity).
      apply product_path_not_collection.
  - apply Forall_forall. intros p Hp.
    assert (Hin : In (fst (product_file p), snd (product_file p))
                    (rev (map product_file ps))).
    { apply in_rev. rewrite rev_involutive, <- surjective_pairing.
      apply in_map, Hp. }
    destruct (dict_get_app_found _ _ _ (collection_file ps :: files w) Hin)
      as (v' & Hin' & Hget).
    apply in_rev, in_map_iff in Hin' as (q & Hq & Hqin).
    pose proof (f_equal fst Hq) as Hpath. pose proof (f_equal snd Hq) as Htext.
    cbn [fst snd] in Hpath, Htext.
    exists q. split; [exact Hqin|]. split; [exact Hpath|].
    split; [|apply product_file_holds].
    rewrite Htext. exact Hget.
Qed.

End MoreHandlers.

Lemma get_watch_by_name_same_query_witness :
  get_watch_by_name HtmlParser.html_parser urljoin_segment "  SWATCH cobalt LAGOON  "
  = Return (mkProduct "Swatch Cobalt Lagoon"
              "https://dj5e08oeu5ym4.cloudfront.net/thumb/cd3708cc-75fc-4f43-a8b3-011b061dba36.webp"
              "https://www.shopar.ai/collection/watches?product=66ba071914de953c8000722f&mode=3d"
              (Some (lit "swatch-cobalt-lagoon"))).
Proof.
  apply (get_watch_by_name_same_query HtmlParser.html_parser urljoin_segment
           "Swatch Cobalt Lagoon" "  SWATCH cobalt LAGOON  ").
  - vm_compute. reflexivity.
  - vm_compute. reflexivity.
Defined.

(** ** Runs of the Save handler on the sample document *)

(** With an environment that lets every call through, the handler returns
    and leaves nine files; with one whose fourth call, the write of the
    first product, fails after five characters, it stops on that
    exception and leaves the file of the collection and the file cut
    short. *)
Example save_watch_collection_sample (urljoin : str -> str -> result str) :
  let disk_full := mkException "OSError" "No space left on device" in
  (exists msg w',
      save_watch_collection HtmlParser.html_parser urljoin (mkWorld [] [])
      = (Return msg, w')
      /\ List.length (files w') = 9)
  /\ exists w',
       save_watch_collection HtmlParser.html_parser urljoin
         (mkWorld [] [Succeeds; Succeeds; Succeeds; Fails disk_full (Some 5)])
       = (Unhandled disk_full, w')
       /\ map fst (files w')
          = [lit "data/hublot_mp-10_tourbillon_watch.json";
             lit "data/watch_collection_watches.json"]
       /\ option_map (@List.length ascii)
            (read_file (files w') "data/hublot_mp-10_tourbillon_watch.json")
          = Some 5.
Proof.
  cbv zeta. split.
  - eexists. eexists. split; [vm_compute; reflexivity|reflexivity].
  - eexists. split; [vm_compute; reflexivity|]. split; reflexivity.
Qed.

Example dirname_sample :
  dirname "data/hublot_mp-10_tourbillon_watch.json" = "data"
  /\ dirname "data/a_b/c.json" = "data/a_b"
  /\ dirname "watch.json" = "".
Proof. repeat split. Qed.
